(** * Iris memecoin pipeline: orchestrator, TikTok scraping tool and store writes

    A shallow embedding of [js-scraper/adk_workflow_orchestrator.mjs] (and of
    its sibling revision that runs the tools one by one) together with the
    properties of the pipeline specification that are stated about it.

    Conventions of the embedding:
    - a JavaScript string is a [string]; each character stands for one code
      unit, and only code units below 256 are representable;
    - a JavaScript number is an IEEE-754 binary64 value, taken from the
      Standard Library's executable specification [SpecFloat];
    - [try]/[catch] is an explicit [completion] that carries the thrown
      value, of which a [catch] block can read the [message] unless it is
      [null] or [undefined]; objects that are mutated
      through a shared reference ([processedUrls], [results], [this]) are
      threaded through the functions as state;
    - calls that leave the program (the agent framework, the browser, the
      hosted store, the clock) are inputs of the functions: an [env] record, a
      page feed, a [service] record, a [now] argument. *)

From Stdlib Require Import ZArith Ascii String List Bool Lia.
From Stdlib Require Import Floats.SpecFloat.
From stdpp Require Import base tactics option list sorting gmap strings.

Local Open Scope string_scope.
Local Open Scope list_scope.
Local Open Scope Z_scope.

(** ** JavaScript numbers *)

Module JS.

Definition prec : Z := 53.
Definition emax : Z := 1024.

(** A Number value. *)
Definition number : Type := spec_float.

Definition NaN : number := S754_nan.
Definition Infinity (neg : bool) : number := S754_infinity neg.

(** The Number value of an integer (round to nearest, ties to even). *)
Definition of_Z (n : Z) : number := binary_normalize prec emax n 0 false.

(** The Number value of [m / d] for positive [m] and [d], correctly rounded:
    the quotient is computed with enough bits and located with respect to
    the remainder, as the division of two floating-point numbers is. *)
Definition of_ratio (neg : bool) (m d : positive) : number :=
  let '(q, e, l) := SFdiv_core_binary prec emax (Zpos m) 0 (Zpos d) 0 in
  binary_round_aux prec emax neg q e l.

(** The Number value of the decimal [m * 10 ^ e10]. *)
Definition of_decimal (neg : bool) (m : N) (e10 : Z) : number :=
  match m with
  | N0 => S754_zero neg
  | Npos p =>
      if 0 <=? e10
      then binary_round prec emax neg (p * Z.to_pos (10 ^ e10)) 0
      else of_ratio neg p (Z.to_pos (10 ^ (- e10)))
  end.

Definition mul (x y : number) : number := SFmul prec emax x y.

(** [Math.floor]. *)
Definition Math_floor (x : number) : number :=
  match x with
  | S754_finite s m e =>
      if 0 <=? e then x
      else
        match cond_Zopp s (Zpos m) / 2 ^ (- e) with
        | Z0 => S754_zero false
        | n => binary_normalize prec emax n 0 false
        end
  | _ => x
  end.

(** [ToBoolean] on a Number: NaN, +0 and -0 are falsy. *)
Definition truthy (x : number) : bool :=
  match x with
  | S754_nan | S754_zero _ => false
  | _ => true
  end.

(** [x || y] on Numbers. *)
Definition or_else (x y : number) : number := if truthy x then x else y.

(** The integer a Number stands for, when it is a finite integer. *)
Definition to_Z (x : number) : option Z :=
  match x with
  | S754_zero _ => Some 0
  | S754_finite s m e =>
      if 0 <=? e then Some (cond_Zopp s (Zpos m) * 2 ^ e)
      else if (Zpos m mod 2 ^ (- e)) =? 0
           then Some (cond_Zopp s (Zpos m) / 2 ^ (- e))
           else None
  | _ => None
  end.

(** *** Code units *)

Definition code (c : ascii) : N := N_of_ascii c.

Definition is_digit (c : ascii) : bool :=
  ((48 <=? code c) && (code c <=? 57))%N.

Definition digit_value (c : ascii) : N := (code c - 48)%N.

(** StrWhiteSpaceChar, for code units below 256. *)
Definition is_space (c : ascii) : bool :=
  ((code c =? 9) || (code c =? 10) || (code c =? 11) || (code c =? 12)
   || (code c =? 13) || (code c =? 32) || (code c =? 160))%N.

(** [String.prototype.toLowerCase] on one code unit below 256. *)
Definition lower_char (c : ascii) : ascii :=
  let n := code c in
  if ((65 <=? n) && (n <=? 90))%N then ascii_of_N (n + 32)
  else if ((192 <=? n) && (n <=? 222) && negb (n =? 215))%N
       then ascii_of_N (n + 32)
       else c.

Fixpoint toLowerCase (s : string) : string :=
  match s with
  | EmptyString => EmptyString
  | String c r => String (lower_char c) (toLowerCase r)
  end.

(** [s.slice(-1)]: the last code unit, or the empty string. *)
Fixpoint slice_last (s : string) : string :=
  match s with
  | EmptyString => EmptyString
  | String c EmptyString => String c EmptyString
  | String _ r => slice_last r
  end.

(** [s.slice(0, -1)]: everything but the last code unit. *)
Fixpoint slice_init (s : string) : string :=
  match s with
  | EmptyString => EmptyString
  | String _ EmptyString => EmptyString
  | String c r => String c (slice_init r)
  end.

(** *** parseFloat *)

Fixpoint skip_spaces (s : string) : string :=
  match s with
  | String c r => if is_space c then skip_spaces r else s
  | EmptyString => s
  end.

(** Reads the longest run of decimal digits: their value on top of [acc],
    how many were read, and the rest of the string. *)
Fixpoint read_digits (s : string) (acc : N) (len : nat) : N * nat * string :=
  match s with
  | String c r =>
      if is_digit c then read_digits r (acc * 10 + digit_value c)%N (S len)
      else (acc, len, s)
  | EmptyString => (acc, len, s)
  end.

(** The ExponentPart, if one starts here: [e] or [E], an optional sign and
    at least one digit. *)
Definition read_exponent (s : string) : Z :=
  match s with
  | String c r =>
      if (code c =? 101)%N || (code c =? 69)%N then
        let '(neg, r') :=
          match r with
          | String "-" t => (true, t)
          | String "+" t => (false, t)
          | _ => (false, r)
          end in
        let '(v, len, _) := read_digits r' 0%N 0%nat in
        match len with
        | O => 0
        | S _ => if neg then - Z.of_N v else Z.of_N v
        end
      else 0
  | EmptyString => 0
  end.

(** The longest prefix that is a StrDecimalLiteral, after the sign. *)
Definition read_unsigned (neg : bool) (s : string) : number :=
  if String.prefix "Infinity" s then Infinity neg
  else
    let '(ip, ilen, r1) := read_digits s 0%N 0%nat in
    let '(m, flen, r2) :=
      match r1 with
      | String "." t => read_digits t ip 0%nat
      | _ => (ip, O, r1)
      end in
    match ilen, flen with
    | O, O => NaN
    | _, _ => of_decimal neg m (read_exponent r2 - Z.of_nat flen)
    end.

Definition parseFloat (s : string) : number :=
  match skip_spaces s with
  | String "-" r => read_unsigned true r
  | String "+" r => read_unsigned false r
  | r => read_unsigned false r
  end.

End JS.

(** ** Thrown values and completions *)

(** A thrown value, as far as a [catch] block of the program tells thrown
    values apart: an object whose [message] is a string, as every [Error]
    is; another value that is neither [null] nor [undefined], whose
    [message] reads as [undefined] (a message that is not a string is not
    told apart from a missing one); [null]; or [undefined]. *)
Inductive thrown :=
| Error (message : string)
| Other
| Null
| Undefined.

#[export] Instance thrown_eq_dec : EqDecision thrown.
Proof. solve_decision. Defined.

(** A completion: a value, or a thrown value. *)
Inductive completion (A : Type) : Type :=
| Normal (a : A)
| Throw (t : thrown).
Arguments Normal {A} a.
Arguments Throw {A} t.

(** [error.message] in a [catch] block: reading a property of [null] or of
    [undefined] throws a TypeError. *)
Definition message_of (error : thrown) : completion (option string) :=
  match error with
  | Error message => Normal (Some message)
  | Other => Normal None
  | Null => Throw (Error "Cannot read properties of null (reading 'message')")
  | Undefined =>
      Throw (Error "Cannot read properties of undefined (reading 'message')")
  end.

(** ** The TikTok scraping tool *)

Module TikTokScrapingTool.

(** *** Scraped data *)

(** What [extractComments] returns: a comment count and, possibly, the
    ticker symbols found with their counts, in [Object.entries] order. *)
Record comments_data := {
  count : Z;
  tickers : option (list (string * Z));
}.

(** What [VideoScraper.extractVideoData] returns. A missing string field is
    the empty string; [views] is the result of [toString()]. *)
Record video := {
  video_url : string;
  author : string;
  thumbnail_url : string;
  posted_timestamp : option Z;
  views : option string;
  comments : option comments_data;
}.

(** *** The hosted store *)

(** A row of table [tiktoks]. Instants are ISO strings in the source; here
    they are the milliseconds they denote. *)
Record tiktok_row := {
  id : string;
  username : string;
  url : string;
  thumbnail : string;
  created_at : Z;
  fetched_at : Z;
  row_views : JS.number;
  row_comments : Z;
}.

Record token := {
  token_id : Z;
  symbol : string;
}.

Record mention_row := {
  m_tiktok_id : string;
  m_count : Z;
  m_token_id : Z;
  mention_at : Z;
}.

Record supabase := {
  tiktoks : list tiktok_row;
  tokens : list token;
  mentions : list mention_row;
}.

(** How the service answers the requests whose answer the source looks at:
    an upsert may come back with an error, and the token query may come
    back without data. *)
Record service := {
  upsert_error : tiktok_row -> bool;
  tokens_unavailable : bool;
}.

(** [from('tiktoks').upsert(row, { onConflict: 'id' })]: the row with the
    same [id] is replaced, otherwise the row is added. *)
Definition same_id (r x : tiktok_row) : bool := bool_decide (id x = id r).

Definition upsert (r : tiktok_row) (table : list tiktok_row) : list tiktok_row :=
  if existsb (same_id r) table
  then map (fun x => if same_id r x then r else x) table
  else table ++ [r].

(** [from('tokens').select('id, symbol').order('id', { ascending: true })]. *)
Definition token_le (a b : token) : Prop := token_id a <= token_id b.

#[export] Instance token_le_dec : RelDecision token_le :=
  fun a b => Z_le_dec (token_id a) (token_id b).

Definition select_tokens (svc : service) (db : supabase) : option (list token) :=
  if tokens_unavailable svc then None
  else Some (merge_sort token_le (tokens db)).

(** [from('mentions').insert(rows)]. *)
Definition insert_mentions (rows : list mention_row) (db : supabase) : supabase :=
  {| tiktoks := tiktoks db; tokens := tokens db; mentions := mentions db ++ rows |}.

(** [new Date(ms).toISOString()] throws a RangeError outside the range of
    time values. The clock reading [now] of [new Date()] is always in
    range and is used as it is. *)
Definition toISOString (ms : Z) : completion Z :=
  if Z.abs ms <=? 8640000000000000 then Normal ms
  else Throw (Error "Invalid time value").

(** *** Helpers of the tool *)

Fixpoint take_digits (s : string) : string :=
  match s with
  | String c r => if JS.is_digit c then String c (take_digits r) else EmptyString
  | EmptyString => EmptyString
  end.

Fixpoint strip_prefix (p s : string) : option string :=
  match p, s with
  | EmptyString, _ => Some s
  | String a p', String b s' => if Ascii.eqb a b then strip_prefix p' s' else None
  | String _ _, EmptyString => None
  end.

(** [url.match(/\/video\/(\d+)/)]: the first place where [/video/] is
    followed by a digit, and the digits there. *)
Fixpoint match_video (s : string) : option string :=
  let here :=
    match strip_prefix "/video/" s with
    | Some r => take_digits r
    | None => EmptyString
    end in
  match here, s with
  | String _ _, _ => Some here
  | EmptyString, String _ r => match_video r
  | EmptyString, EmptyString => None
  end.

Definition getTiktokId (url : string) : option string :=
  if bool_decide (url = "") then None else match_video url.

Fixpoint sanitize (str : string) : string :=
  match str with
  | EmptyString => EmptyString
  | String c r => if (JS.code c =? 0)%N then sanitize r else String c (sanitize r)
  end.

Definition unitMultiplier (unit : string) : option JS.number :=
  if bool_decide (unit = "k") then Some (JS.of_Z 1000)
  else if bool_decide (unit = "m") then Some (JS.of_Z 1000000)
  else if bool_decide (unit = "b") then Some (JS.of_Z 1000000000)
  else None.

Definition formatViews (views : string) : JS.number :=
  if bool_decide (views = "") then JS.of_Z 0
  else
    let unit := JS.toLowerCase (JS.slice_last views) in
    match unitMultiplier unit with
    | Some multiplier =>
        JS.Math_floor (JS.mul (JS.parseFloat (JS.slice_init views)) multiplier)
    | None => JS.or_else (JS.Math_floor (JS.parseFloat views)) (JS.of_Z 0)
    end.

(** *** Recording mentions *)

(** The [symbolToTokens] map built by [tokens.forEach]. *)
Definition add_token (acc : gmap string (list Z)) (t : token) : gmap string (list Z) :=
  match acc !! symbol t with
  | None => <[symbol t := [token_id t]]> acc
  | Some ids => <[symbol t := ids ++ [token_id t]]> acc
  end.

Definition symbolToTokens (toks : list token) : gmap string (list Z) :=
  fold_left add_token toks ∅.

(** The rows pushed for one entry of [comments.tickers]. *)
Definition push_mentions (tiktokId : string) (mentionAt : Z)
    (map : gmap string (list Z)) (acc : list mention_row) (entry : string * Z)
    : list mention_row :=
  match map !! entry.1 with
  | None => acc
  | Some tokenIds =>
      acc ++ List.map (fun tokenId =>
               {| m_tiktok_id := tiktokId; m_count := entry.2;
                  m_token_id := tokenId; mention_at := mentionAt |}) tokenIds
  end.

Definition mentionsData (tiktokId : string) (mentionAt : Z) (toks : list token)
    (entries : list (string * Z)) : list mention_row :=
  fold_left (push_mentions tiktokId mentionAt (symbolToTokens toks)) entries [].

(** The body of the [try] block of [storeTokenMentions]. *)
Definition storeTokenMentions_try (svc : service) (now : Z) (tiktokId : string)
    (entries : list (string * Z)) (db : supabase) : completion supabase :=
  match select_tokens svc db with
  | None => Throw (Error "Cannot read properties of null (reading 'forEach')")
  | Some toks =>
      let mentionAt := now in
      let rows := mentionsData tiktokId mentionAt toks entries in
      if (0 <? length rows)%nat then Normal (insert_mentions rows db)
      else Normal db
  end.

Definition storeTokenMentions (svc : service) (now : Z) (tiktokId : string)
    (comments : option comments_data) (db : supabase) : completion supabase :=
  match comments with
  | None => Normal db
  | Some c =>
      match tickers c with
      | None => Normal db
      | Some entries =>
          match storeTokenMentions_try svc now tiktokId entries db with
          | Normal db' => Normal db'
          | Throw _ => Normal db
          end
      end
  end.

(** *** Storing videos *)

(** The [tiktokRecord] object literal. Building it throws when the posted
    timestamp is not a valid time value. *)
Definition tiktokRecord (now : Z) (tiktokId : string) (v : video)
    : completion tiktok_row :=
  let created :=
    match posted_timestamp v with
    | Some t => if t =? 0 then Normal now else toISOString (t * 1000)
    | None => Normal now
    end in
  match created with
  | Throw t => Throw t
  | Normal created_at_ =>
      Normal {| id := tiktokId;
                username := sanitize (author v);
                url := sanitize (video_url v);
                thumbnail := sanitize (thumbnail_url v);
                created_at := created_at_;
                fetched_at := now;
                row_views :=
                  formatViews
                    match views v with
                    | Some s => if bool_decide (s = "") then "0" else s
                    | None => "0"
                    end;
                row_comments :=
                  match comments v with
                  | Some c => count c
                  | None => 0
                  end |}
  end.

(** One iteration of the loop of [storeVideos]. *)
Definition storeVideo (svc : service) (now : Z) (db : supabase) (v : video)
    : supabase :=
  match getTiktokId (video_url v) with
  | None => db
  | Some tiktokId =>
      match tiktokRecord now tiktokId v with
      | Throw _ => db
      | Normal record =>
          if upsert_error svc record then db
          else
            let db1 := {| tiktoks := upsert record (tiktoks db);
                          tokens := tokens db;
                          mentions := mentions db |} in
            match comments v with
            | Some c =>
                match tickers c with
                | Some _ =>
                    match storeTokenMentions svc now tiktokId (Some c) db1 with
                    | Normal db2 => db2
                    | Throw _ => db1
                    end
                | None => db1
                end
            | None => db1
            end
      end
  end.

Definition storeVideos (svc : service) (now : Z) (videos : list video)
    (db : supabase) : supabase :=
  fold_left (storeVideo svc now) videos db.

(** *** Scraping one page *)

(** What the browser shows for one element of a page: extracting its data
    throws, yields nothing, or yields a video together with the completion of
    [extractComments] for it. *)
Inductive extraction :=
| ExtractThrows (t : thrown)
| NoVideoData
| VideoData (v : video) (c : completion (option comments_data)).

(** One look at the page: the elements matched by the selector, or an error
    thrown by the navigation, the selector query or the scroll before it. *)
Inductive snapshot :=
| PageThrows (t : thrown)
| Elements (els : list extraction).

(** Whether the scroll loop has left the function with the looks at the page
    taken so far. The loop has no bound on its attempts: it is [Pending] when
    the feed is used up before the limit is reached. *)
Inductive loop_status := Returned | Pending.

Definition with_comments (v : video) (c : option comments_data) : video :=
  {| video_url := video_url v; author := author v;
     thumbnail_url := thumbnail_url v; posted_timestamp := posted_timestamp v;
     views := views v; comments := c |}.

(** The [for (const element of videoElements)] loop. *)
Fixpoint scan_elements (maxResults : nat) (els : list extraction)
    (results : list video) (processedUrls : gset string)
    : completion unit * list video * gset string :=
  match els with
  | [] => (Normal tt, results, processedUrls)
  | el :: rest =>
      if (maxResults <=? length results)%nat
      then (Normal tt, results, processedUrls)
      else
        match el with
        | ExtractThrows t => (Throw t, results, processedUrls)
        | NoVideoData => scan_elements maxResults rest results processedUrls
        | VideoData v c =>
            if bool_decide (video_url v <> "")
               && bool_decide (video_url v ∉ processedUrls)
            then
              match c with
              | Throw t => (Throw t, results, processedUrls)
              | Normal cs =>
                  scan_elements maxResults rest
                    (results ++ [with_comments v cs])
                    ({[video_url v]} ∪ processedUrls)
              end
            else scan_elements maxResults rest results processedUrls
        end
  end.

(** The [while (results.length < maxResults)] loop inside the [try] block,
    over the successive looks at the page. *)
Fixpoint scroll_loop (maxResults : nat) (feed : list snapshot)
    (results : list video) (processedUrls : gset string)
    : loop_status * list video * gset string :=
  if (maxResults <=? length results)%nat
  then (Returned, results, processedUrls)
  else
    match feed with
    | [] => (Pending, results, processedUrls)
    | PageThrows _ :: _ => (Returned, results, processedUrls)
    | Elements [] :: feed' => scroll_loop maxResults feed' results processedUrls
    | Elements els :: feed' =>
        match scan_elements maxResults els results processedUrls with
        | (Throw _, results', seen') => (Returned, results', seen')
        | (Normal _, results', seen') =>
            if (maxResults <=? length results')%nat
            then (Returned, results', seen')
            else scroll_loop maxResults feed' results' seen'
        end
    end.

(** The browser of one call of [execute]: what [puppeteer.launch] throws, if
    it throws; the looks at the search page and at the hashtag page of a
    keyword; what [browser.close()] throws, if it throws, when it is called
    at the end of the [try] block; and what it throws when the [catch]
    block then calls it a second time. *)
Record browser := {
  launch_error : option thrown;
  search_page : string -> list snapshot;
  tag_page : string -> list snapshot;
  close_error : option thrown;
  close_again_error : option thrown;
}.

Definition processSearchTerm (page : browser) (keyword : string)
    (maxResults : nat) (processedUrls : gset string)
    : loop_status * list video * gset string :=
  scroll_loop maxResults (search_page page keyword) [] processedUrls.

Definition processHashtagTerm (page : browser) (keyword : string)
    (maxResults : nat) (processedUrls : gset string)
    : loop_status * list video * gset string :=
  scroll_loop maxResults (tag_page page keyword) [] processedUrls.

(** *** The tool's entry point *)

Definition searchTerms : list string :=
  ["memecoin"; "pumpfun"; "solana"; "crypto"; "meme"; "bags"; "bonk"].

Definition hashtagTerms : list string :=
  ["memecoin"; "solana"; "crypto"; "pumpfun"; "meme"; "bags"; "bonk"].

(** The variables of [execute], the store, and the videos handed to
    [storeVideos] so far (the records the invocation has emitted). *)
Record scrape_state := {
  totalVideos : nat;
  processedUrls : gset string;
  db : supabase;
  emitted : list video;
}.

(** Either [for] loop of [execute]. *)
Fixpoint for_terms
    (process : string -> nat -> gset string -> loop_status * list video * gset string)
    (svc : service) (now : Z) (terms : list string) (maxResults : nat)
    (st : scrape_state) : loop_status * scrape_state :=
  match terms with
  | [] => (Returned, st)
  | term :: rest =>
      match process term maxResults (processedUrls st) with
      | (Pending, _, seen) =>
          (Pending, {| totalVideos := totalVideos st; processedUrls := seen;
                       db := db st; emitted := emitted st |})
      | (Returned, videos, seen) =>
          for_terms process svc now rest maxResults
            {| totalVideos := totalVideos st + length videos;
               processedUrls := seen;
               db := storeVideos svc now videos (db st);
               emitted := emitted st ++ videos |}
      end
  end.

Record tool_result := {
  success : bool;
  total : option nat;
  error : option string;
}.

(** The [return] of the [catch] block of [execute]. *)
Definition failure (error : thrown) : completion tool_result :=
  match message_of error with
  | Normal message =>
      Normal {| success := false; total := None; error := message |}
  | Throw t => Throw t
  end.

(** [execute]: its completion (none while a scroll loop is still pending) and
    the final variables. When the launch throws, [this.browser] is still
    [null] and the [catch] block does not close it. *)
Definition execute (svc : service) (now : Z) (page : browser) (db0 : supabase)
    : option (completion tool_result) * scrape_state :=
  let st0 := {| totalVideos := 0; processedUrls := ∅; db := db0; emitted := [] |} in
  match launch_error page with
  | Some error => (Some (failure error), st0)
  | None =>
      match for_terms (processSearchTerm page) svc now searchTerms 100 st0 with
      | (Pending, st1) => (None, st1)
      | (Returned, st1) =>
          match for_terms (processHashtagTerm page) svc now hashtagTerms 200 st1 with
          | (Pending, st2) => (None, st2)
          | (Returned, st2) =>
              match close_error page with
              | Some error =>
                  match close_again_error page with
                  | Some t => (Some (Throw t), st2)
                  | None => (Some (failure error), st2)
                  end
              | None =>
                  (Some (Normal {| success := true;
                                   total := Some (totalVideos st2);
                                   error := None |}), st2)
              end
          end
      end
  end.

End TikTokScrapingTool.

(** ** The workflow orchestrator *)

(** What both revisions of [IrisWorkflowOrchestrator] share. *)
Module Pipeline.

(** The seven agents of [this.agents]; each stands for one stage. *)
Inductive agent :=
| marketDataFetcher
| tiktokScraper
| telegramScraper
| outlightScraper
| patternAnalyzer
| twitterAlerts
| dashboardUpdater.

#[export] Instance agent_eq_dec : EqDecision agent.
Proof. solve_decision. Defined.

(** The result object of a stage, as far as the orchestrator can see it. *)
Record stage_result := {
  success : bool;
  error : option string;
}.

(** A workflow built by [AgentBuilder]. *)
Record workflow := {
  wf_name : string;
  wf_agents : list agent;
}.

(** Everything outside the orchestrator that one call can meet. *)
Record env := {
  (** [AgentBuilder.create(name).asSequential(agents).build()]: what it
      throws, if it throws *)
  adk_build : string -> list agent -> option thrown;
  (** [workflow.run] / [workflow.execute] with the given mode *)
  adk_run : workflow -> string -> completion stage_result;
  (** [this.agents.X.run({ input: { mode } })] *)
  agent_run : agent -> string -> completion stage_result;
  (** [new XTool(...).execute({ mode })] for the tool of a stage *)
  tool_execute : agent -> string -> completion stage_result;
  (** [new Date()] *)
  now : Z;
}.

(** The calls that leave the orchestrator, in the order they are made. *)
Inductive event :=
| EBuild (name : string) (agents : list agent)
| EWorkflowRun (name : string) (mode : string)
| EAgentRun (a : agent) (mode : string)
| EToolExecute (a : agent) (mode : string).

(** The fields of [this]. *)
Record orchestrator := {
  isRunning : bool;
  workflow_ : option workflow;
  sessionId : string;
}.

(** The report object returned by the manual strategies. [results] keeps the
    insertion order of its keys. *)
Record report := {
  rep_success : bool;
  rep_mode : string;
  rep_error : option string;
  rep_results : list (string * stage_result);
  rep_timestamp : Z;
}.

(** The object returned by [getStatus]. *)
Record status := {
  st_isRunning : bool;
  st_sessionId : string;
  st_agents : list (string * string);
  st_workflow : string;
  st_timestamp : Z;
}.

(** The values the methods return. *)
Inductive value :=
| VUndefined
| VResult (r : stage_result)
| VReport (r : report)
| VStatus (s : status).

(** *** A state and exception monad for the method bodies *)

(** [this], the [results] object of the running method, and the log of
    outside calls. [at_calls] holds the value of [this] at the moment of each
    outside call, which is where the method awaits and other calls can
    arrive; the source keeps no such record. *)
Record heap := {
  this : orchestrator;
  results : list (string * stage_result);
  log : list event;
  at_calls : list orchestrator;
}.

Definition M (A : Type) : Type := heap -> completion A * heap.

Definition ret {A} (a : A) : M A := fun h => (Normal a, h).

Definition bind {A B} (c : M A) (k : A -> M B) : M B :=
  fun h =>
    match c h with
    | (Normal a, h') => k a h'
    | (Throw t, h') => (Throw t, h')
    end.

Definition throw {A} (t : thrown) : M A := fun h => (Throw t, h).

Definition try_catch {A} (c : M A) (handler : thrown -> M A) : M A :=
  fun h =>
    match c h with
    | (Normal a, h') => (Normal a, h')
    | (Throw t, h') => handler t h'
    end.

#[export] Instance M_ret : MRet M := @ret.
#[export] Instance M_bind : MBind M := fun A B k c => bind c k.

Definition get_this : M orchestrator := fun h => (Normal (this h), h).

Definition set_isRunning (b : bool) : M unit :=
  fun h =>
    (Normal tt,
     {| this := {| isRunning := b; workflow_ := workflow_ (this h);
                   sessionId := sessionId (this h) |};
        results := results h; log := log h; at_calls := at_calls h |}).

Definition set_workflow (w : option workflow) : M unit :=
  fun h =>
    (Normal tt,
     {| this := {| isRunning := isRunning (this h); workflow_ := w;
                   sessionId := sessionId (this h) |};
        results := results h; log := log h; at_calls := at_calls h |}).

Definition emit (ev : event) : M unit :=
  fun h =>
    (Normal tt,
     {| this := this h; results := results h; log := log h ++ [ev];
        at_calls := at_calls h ++ [this h] |}).

Definition lift {A} (c : completion A) : M A := fun h => (c, h).

(** [error.message] *)
Definition read_message (error : thrown) : M (option string) :=
  lift (message_of error).

(** [const results = {}] *)
Definition new_results : M unit :=
  fun h =>
    (Normal tt,
     {| this := this h; results := []; log := log h; at_calls := at_calls h |}).

Definition get_results : M (list (string * stage_result)) :=
  fun h => (Normal (results h), h).

(** [obj[key] = r] on an object with ordered keys. *)
Fixpoint obj_set (key : string) (r : stage_result)
    (obj : list (string * stage_result)) : list (string * stage_result) :=
  match obj with
  | [] => [(key, r)]
  | (k, x) :: rest =>
      if bool_decide (k = key) then (k, r) :: rest
      else (k, x) :: obj_set key r rest
  end.

(** [results[key] = r] *)
Definition set_result (key : string) (r : stage_result) : M unit :=
  fun h =>
    (Normal tt,
     {| this := this h; results := obj_set key r (results h); log := log h;
        at_calls := at_calls h |}).

Definition build (e : env) (name : string) (agents : list agent) : M workflow :=
  emit (EBuild name agents);;
  match adk_build e name agents with
  | Some t => throw t
  | None => ret {| wf_name := name; wf_agents := agents |}
  end.

Definition run_workflow (e : env) (w : workflow) (mode : string) : M stage_result :=
  emit (EWorkflowRun (wf_name w) mode) ;; lift (adk_run e w mode).

Definition run_agent (e : env) (a : agent) (mode : string) : M stage_result :=
  emit (EAgentRun a mode) ;; lift (agent_run e a mode).

Definition execute_tool (e : env) (a : agent) (mode : string) : M stage_result :=
  emit (EToolExecute a mode) ;; lift (tool_execute e a mode).

(** The stage a logged call attempts, if it attempts one. *)
Definition stage_of (ev : event) : option agent :=
  match ev with
  | EAgentRun a _ | EToolExecute a _ => Some a
  | EBuild _ _ | EWorkflowRun _ _ => None
  end.

Definition stages_attempted (l : list event) : list agent :=
  omap stage_of l.

(** [Object.keys(this.agents)], in the order [initializeAgents] fills it. *)
Definition agent_names : list string :=
  ["tiktokScraper"; "telegramScraper"; "patternAnalyzer"; "marketDataFetcher";
   "twitterAlerts"; "outlightScraper"; "dashboardUpdater"].

Definition getStatus (e : env) (o : orchestrator) : status :=
  {| st_isRunning := isRunning o;
     st_sessionId := sessionId o;
     st_agents := map (fun name => (name, "initialized")) agent_names;
     st_workflow := match workflow_ o with
                    | Some _ => "created"
                    | None => "not_created"
                    end;
     st_timestamp := now e |}.

Definition stop : M unit := set_isRunning false.

(** The fixed stage order of a full run as the specification words it:
    market-data refresh, video scraping, channel scraping, discovery
    scraping, correlation analysis, alerting, downstream sync. *)
Definition full_stage_order : list agent :=
  [marketDataFetcher; tiktokScraper; telegramScraper; outlightScraper;
   patternAnalyzer; twitterAlerts; dashboardUpdater].

(** The reduced order of a periodic run as the specification words it:
    discovery, correlation analysis, alerting, downstream sync. *)
Definition periodic_stage_order : list agent :=
  [outlightScraper; patternAnalyzer; twitterAlerts; dashboardUpdater].

(** A method call on an orchestrator: its completion, the orchestrator after
    it, and the outside calls it made. *)
Definition call {A} (m : M A) (o : orchestrator)
    : completion A * orchestrator * list event :=
  let '(c, h) := m {| this := o; results := []; log := []; at_calls := [] |} in
  (c, this h, log h).

(** The value of [this] at each outside call of a method call, in order. *)
Definition this_at_calls {A} (m : M A) (o : orchestrator) : list orchestrator :=
  at_calls (m {| this := o; results := []; log := []; at_calls := [] |}).2.

End Pipeline.

(** *** [adk_workflow_orchestrator.mjs] *)

Module Orchestrator.
Import Pipeline.

Definition createWorkflow (e : env) : M (option workflow) :=
  try_catch
    (try_catch
       (w ← build e "iris_memecoin_pipeline"
              [marketDataFetcher; tiktokScraper; telegramScraper;
               outlightScraper; patternAnalyzer; twitterAlerts;
               dashboardUpdater];
        set_workflow (Some w);;
        mret (Some w))
       (fun adkError =>
          read_message adkError;;
          set_workflow None;;
          mret None))
    (fun error => throw error).

(** Manual workflow execution: one [try] block around the seven steps. *)
Definition runManualWorkflow (e : env) : M report :=
  new_results;;
  try_catch
    (r1 ← run_agent e marketDataFetcher "full_collection";
     set_result "marketData" r1;;
     r2 ← run_agent e tiktokScraper "full_scraping";
     set_result "tiktokScraping" r2;;
     r3 ← run_agent e telegramScraper "full_scraping";
     set_result "telegramScraping" r3;;
     r4 ← run_agent e outlightScraper "full_discovery";
     set_result "outlightScraping" r4;;
     r5 ← run_agent e patternAnalyzer "comprehensive_analysis";
     set_result "patternAnalysis" r5;;
     r6 ← run_agent e twitterAlerts "alert_generation";
     set_result "twitterAlerts" r6;;
     r7 ← run_agent e dashboardUpdater "full_update";
     set_result "dashboardUpdate" r7;;
     results ← get_results;
     mret {| rep_success := true; rep_mode := "manual"; rep_error := None;
             rep_results := results; rep_timestamp := now e |})
    (fun error =>
       message ← read_message error;
       results ← get_results;
       mret {| rep_success := false; rep_mode := "manual";
               rep_error := message; rep_results := results;
               rep_timestamp := now e |}).

Definition start (e : env) : M value :=
  try_catch
    (o ← get_this;
     if isRunning o then mret VUndefined
     else
       match workflow_ o with
       | None => createWorkflow e;; mret tt
       | Some _ => mret tt
       end;;
       o' ← get_this;
       match workflow_ o' with
       | Some w =>
           result ← run_workflow e w "full_analysis";
           set_isRunning true;;
           mret (VResult result)
       | None =>
           result ← runManualWorkflow e;
           set_isRunning true;;
           mret (VReport result)
       end)
    (fun error => throw error).

Definition runPeriodicAnalysis (e : env) : M value :=
  try_catch
    (o ← get_this;
     if negb (isRunning o) then mret VUndefined
     else
       try_catch
         (analysisWorkflow ← build e "periodic_analysis"
              [outlightScraper; patternAnalyzer; twitterAlerts;
               dashboardUpdater];
          result ← run_workflow e analysisWorkflow "periodic_analysis";
          mret (VResult result))
         (fun adkError =>
            read_message adkError;;
            new_results;;
            r1 ← run_agent e outlightScraper "periodic_discovery";
            set_result "outlightScraping" r1;;
            r2 ← run_agent e patternAnalyzer "quick_analysis";
            set_result "patternAnalysis" r2;;
            r3 ← run_agent e twitterAlerts "periodic_alerts";
            set_result "twitterAlerts" r3;;
            r4 ← run_agent e dashboardUpdater "periodic_update";
            set_result "dashboardUpdate" r4;;
            results ← get_results;
            mret (VReport {| rep_success := true; rep_mode := "manual";
                             rep_error := None; rep_results := results;
                             rep_timestamp := now e |})))
    (fun error => mret VUndefined).

(** **** The timer of [main]

    [main] awaits [start] and then lets [setInterval] call
    [runPeriodicAnalysis] every two hours without awaiting it. A call runs
    up to its first [await] when the timer fires and settles later, so the
    process is followed through two kinds of events. [in_flight] counts the
    periodic runs that have begun and not yet settled; the source keeps no
    such counter. *)
Record process := {
  orch : orchestrator;
  in_flight : nat;
}.

Inductive timer_event :=
| Tick (e : env)
| Settled.

Definition on_event (p : process) (ev : timer_event) : process :=
  match ev with
  | Tick e =>
      let '(_, o, l) := call (runPeriodicAnalysis e) (orch p) in
      {| orch := o;
         in_flight := match l with
                      | [] => in_flight p
                      | _ :: _ => S (in_flight p)
                      end |}
  | Settled => {| orch := orch p; in_flight := pred (in_flight p) |}
  end.

Definition run_events (p : process) (evs : list timer_event) : process :=
  fold_left on_event evs p.

(** The process when [main] has awaited [start] and installed the timer. *)
Definition main (e : env) (o : orchestrator) : completion process :=
  match call (start e) o with
  | (Normal _, o', _) => Normal {| orch := o'; in_flight := 0 |}
  | (Throw t, _, _) => Throw t
  end.

End Orchestrator.

(** *** The sibling revision, which runs the tools one by one *)

Module IndividualRevision.
Import Pipeline.

Definition createWorkflow (e : env) : M workflow :=
  try_catch
    (w ← build e "iris_memecoin_pipeline"
           [marketDataFetcher; tiktokScraper; telegramScraper;
            outlightScraper; patternAnalyzer; twitterAlerts;
            dashboardUpdater];
     set_workflow (Some w);;
     mret w)
    (fun error => throw error).

(** One step: its own [try] block around the tool, and a [catch] that
    records the failure under the same key. *)
Definition step (e : env) (a : agent) (mode key : string) : M unit :=
  try_catch
    (r ← execute_tool e a mode; set_result key r)
    (fun error =>
       message ← read_message error;
       set_result key {| success := false; error := message |}).

Definition runAgentsIndividually (e : env) : M value :=
  try_catch
    (new_results;;
     step e marketDataFetcher "test" "marketData";;
     step e tiktokScraper "test" "tiktok";;
     step e telegramScraper "test" "telegram";;
     step e outlightScraper "test" "outlight";;
     step e patternAnalyzer "test" "patternAnalysis";;
     step e twitterAlerts "test" "twitter";;
     step e dashboardUpdater "test" "dashboard";;
     set_isRunning true;;
     results ← get_results;
     mret (VReport {| rep_success := true; rep_mode := "individual_execution";
                      rep_error := None; rep_results := results;
                      rep_timestamp := now e |}))
    (fun error => throw error).

Definition start (e : env) : M value :=
  try_catch
    (o ← get_this;
     if isRunning o then mret VUndefined
     else
       try_catch
         (match workflow_ o with
          | None => createWorkflow e;; mret tt
          | Some _ => mret tt
          end;;
          o' ← get_this;
          match workflow_ o' with
          | Some w =>
              result ← run_workflow e w "full_analysis";
              set_isRunning true;;
              mret (VResult result)
          | None =>
              throw (Error "Cannot read properties of null (reading 'execute')")
          end)
         (fun adkError =>
            read_message adkError;;
            runAgentsIndividually e))
    (fun error => throw error).

Definition runPeriodicAnalysis (e : env) : M value :=
  try_catch
    (o ← get_this;
     if negb (isRunning o) then mret VUndefined
     else
       try_catch
         (analysisWorkflow ← build e "periodic_analysis"
              [outlightScraper; patternAnalyzer; twitterAlerts;
               dashboardUpdater];
          result ← run_workflow e analysisWorkflow "periodic_analysis";
          mret (VResult result))
         (fun adkError =>
            new_results;;
            step e outlightScraper "periodic" "outlight";;
            step e patternAnalyzer "periodic" "patternAnalysis";;
            step e twitterAlerts "periodic" "twitter";;
            step e dashboardUpdater "periodic" "dashboard";;
            results ← get_results;
            mret (VReport {| rep_success := true;
                             rep_mode := "individual_periodic";
                             rep_error := None; rep_results := results;
                             rep_timestamp := now e |})))
    (fun error => mret VUndefined).

End IndividualRevision.

(** ** Vocabulary of the properties *)

Module Vocabulary.
Import TikTokScrapingTool.

(** The row pushed for a ticker count and a token id. *)
Definition mention (tiktokId : string) (mentionAt : Z) (cnt : Z) (tokenId : Z)
    : mention_row :=
  {| m_tiktok_id := tiktokId; m_count := cnt; m_token_id := tokenId;
     mention_at := mentionAt |}.

(** The ids of the tokens that carry a symbol, in table order. *)
Definition ids_of (s : string) (toks : list token) : list Z :=
  token_id <$> filter (fun t => symbol t = s) toks.

(** The ids of the rows of [tiktoks]. *)
Definition ids (table : list tiktok_row) : list string := id <$> table.

(** The external identifiers of a sequence of videos. *)
Definition urls (vs : list video) : list string := video_url <$> vs.

(** The urls emitted so far are pairwise distinct and all in the seen-set. *)
Definition seen_inv (vs : list video) (seen : gset string) : Prop :=
  NoDup (urls vs) /\ forall u, u ∈ urls vs -> u ∈ seen.

(** The mention rows of a TikTok for a token. *)
Definition rows_for (tiktokId : string) (tokenId : Z) (rows : list mention_row)
    : list mention_row :=
  filter (fun r => m_tiktok_id r = tiktokId /\ m_token_id r = tokenId) rows.

(** A video of which only the url matters. *)
Definition only_url (u : string) : video :=
  {| video_url := u; author := ""; thumbnail_url := ""; posted_timestamp := None;
     views := None; comments := None |}.

(** The key under which the sibling revision files the result of a stage. *)
Definition individual_key (a : Pipeline.agent) : string :=
  match a with
  | Pipeline.marketDataFetcher => "marketData"
  | Pipeline.tiktokScraper => "tiktok"
  | Pipeline.telegramScraper => "telegram"
  | Pipeline.outlightScraper => "outlight"
  | Pipeline.patternAnalyzer => "patternAnalysis"
  | Pipeline.twitterAlerts => "twitter"
  | Pipeline.dashboardUpdater => "dashboard"
  end.

(** Whether a string consists of decimal digits. *)
Fixpoint all_digits (s : string) : bool :=
  match s with
  | EmptyString => true
  | String c r => JS.is_digit c && all_digits r
  end.

(** The number a string of decimal digits denotes, on top of [acc]. *)
Fixpoint decimal_value (s : string) (acc : N) : N :=
  match s with
  | EmptyString => acc
  | String c r => decimal_value r (acc * 10 + JS.digit_value c)%N
  end.

(** The multiplier of a unit suffix, in either case. *)
Definition suffix_multiplier (c : ascii) : option Z :=
  if (Ascii.eqb c "k" || Ascii.eqb c "K")%bool then Some 1000
  else if (Ascii.eqb c "m" || Ascii.eqb c "M")%bool then Some 1000000
  else if (Ascii.eqb c "b" || Ascii.eqb c "B")%bool then Some 1000000000
  else None.

(** The binary64 value of a positive integer below [2^53]: its mantissa
    shifted to 53 bits. *)
Definition canonical (p : positive) : spec_float :=
  S754_finite false
    (Z.to_pos (Zpos p * 2 ^ (53 - Zpos (digits2_pos p))))
    (Zpos (digits2_pos p) - 53).

(** The floor of the decimal [m / 10 ^ frac] times [multiplier], computed
    exactly. *)
Definition exact_floor (m : Z) (frac : Z) (multiplier : Z) : Z :=
  (m * multiplier) / 10 ^ frac.

End Vocabulary.

(** ** Concrete inputs used by the examples *)

Module Fixtures.
Import Pipeline.

Definition ok : stage_result := {| success := true; error := None |}.

(** The agent framework cannot build a workflow; every stage returns. *)
Definition no_adk : env :=
  {| adk_build := fun _ _ =>
       Some (Error "this.sessionService.createSession is not a function");
     adk_run := fun _ _ => Normal ok;
     agent_run := fun _ _ => Normal ok;
     tool_execute := fun _ _ => Normal ok;
     now := 1700000000000 |}.

(** As [no_adk], and the Telegram stage throws. *)
Definition telegram_throws : env :=
  {| adk_build := fun _ _ =>
       Some (Error "this.sessionService.createSession is not a function");
     adk_run := fun _ _ => Normal ok;
     agent_run := fun a _ =>
       match a with
       | telegramScraper => Throw (Error "FLOOD_WAIT")
       | _ => Normal ok
       end;
     tool_execute := fun a _ =>
       match a with
       | telegramScraper => Throw (Error "FLOOD_WAIT")
       | _ => Normal ok
       end;
     now := 1700000000000 |}.

(** As [no_adk], and the discovery stage throws. *)
Definition outlight_throws : env :=
  {| adk_build := fun _ _ =>
       Some (Error "this.sessionService.createSession is not a function");
     adk_run := fun _ _ => Normal ok;
     agent_run := fun a _ =>
       match a with
       | outlightScraper => Throw (Error "net::ERR_TIMED_OUT")
       | _ => Normal ok
       end;
     tool_execute := fun a _ =>
       match a with
       | outlightScraper => Throw (Error "net::ERR_TIMED_OUT")
       | _ => Normal ok
       end;
     now := 1700000000000 |}.

(** The build of a workflow rejects with [undefined]; every stage returns. *)
Definition build_rejects_undefined : env :=
  {| adk_build := fun _ _ => Some Undefined;
     adk_run := fun _ _ => Normal ok;
     agent_run := fun _ _ => Normal ok;
     tool_execute := fun _ _ => Normal ok;
     now := 1700000000000 |}.

(** A freshly constructed orchestrator. *)
Definition fresh : orchestrator :=
  {| isRunning := false; workflow_ := None; sessionId := "iris_session_1" |}.

(** The orchestrator once [start] has completed in manual mode. *)
Definition started : orchestrator :=
  {| isRunning := true; workflow_ := None; sessionId := "iris_session_1" |}.

(** A store that knows three tokens, two of them under the symbol FOO. *)
Definition db0 : TikTokScrapingTool.supabase :=
  {| TikTokScrapingTool.tiktoks := [];
     TikTokScrapingTool.tokens :=
       [ {| TikTokScrapingTool.token_id := 3; TikTokScrapingTool.symbol := "FOO" |};
         {| TikTokScrapingTool.token_id := 1; TikTokScrapingTool.symbol := "FOO" |};
         {| TikTokScrapingTool.token_id := 2; TikTokScrapingTool.symbol := "BAR" |} ];
     TikTokScrapingTool.mentions := [] |}.

(** The service answers every request. *)
Definition svc_ok : TikTokScrapingTool.service :=
  {| TikTokScrapingTool.upsert_error := fun _ => false;
     TikTokScrapingTool.tokens_unavailable := false |}.

Definition foo_comments : TikTokScrapingTool.comments_data :=
  {| TikTokScrapingTool.count := 12;
     TikTokScrapingTool.tickers := Some [("FOO", 3); ("NOPE", 1)] |}.

Definition clip (u : string) (v : string) : TikTokScrapingTool.video :=
  {| TikTokScrapingTool.video_url := u;
     TikTokScrapingTool.author := "alice";
     TikTokScrapingTool.thumbnail_url := "";
     TikTokScrapingTool.posted_timestamp := Some 1690000000;
     TikTokScrapingTool.views := Some v;
     TikTokScrapingTool.comments := None |}.

Definition clip_a := clip "https://www.tiktok.com/@alice/video/7301" "32.3K".
Definition clip_b := clip "https://www.tiktok.com/@bob/video/7302" "980".
Definition clip_c := clip "https://www.tiktok.com/@carol/video/7303" "1.5M".
Definition clip_d := clip "https://www.tiktok.com/@dave/video/7304" "".

Definition shown (v : TikTokScrapingTool.video) : TikTokScrapingTool.extraction :=
  TikTokScrapingTool.VideoData v (Normal (Some foo_comments)).

(** A browser whose search page for [memecoin] shows two overlapping pages
    and then times out, whose hashtag page for [memecoin] shows one of these
    videos again next to a new one, and whose other pages fail to load. *)
Definition overlapping_pages : TikTokScrapingTool.browser :=
  {| TikTokScrapingTool.launch_error := None;
     TikTokScrapingTool.search_page := fun keyword =>
       if bool_decide (keyword = "memecoin")
       then [ TikTokScrapingTool.Elements [shown clip_a; shown clip_b];
              TikTokScrapingTool.Elements [shown clip_a; shown clip_b; shown clip_c];
              TikTokScrapingTool.PageThrows (Error "Navigation timeout") ]
       else [ TikTokScrapingTool.PageThrows (Error "Navigation timeout") ];
     TikTokScrapingTool.tag_page := fun keyword =>
       if bool_decide (keyword = "memecoin")
       then [ TikTokScrapingTool.Elements [shown clip_a; shown clip_d];
              TikTokScrapingTool.PageThrows (Error "Navigation timeout") ]
       else [ TikTokScrapingTool.PageThrows (Error "Navigation timeout") ];
     TikTokScrapingTool.close_error := None;
     TikTokScrapingTool.close_again_error := None |}.

End Fixtures.

(** ** The other tools of the workflow *)

Module Tools.

(** The calls the tools make into the scraper, analyzer, market-data and
    Twitter modules. *)
Inductive outside_call :=
| NewTelegramChannelScraper
| InitializeDatabase
| DiscoverChannels
| LoadChannels
| ScrapeAllChannels (limit : Z)
| NewOutlightScraper
| OutlightMain
| NewMemecoinPatternAnalyzer
| RunComprehensiveAnalysis
| ImportModule (path : string)
| FetchAndPushMemecoins
| FetchAndPushPrices
| FetchMarketData
| UpdateTokenMarketData
| NewTwitterIntegration
| TestConnection
| TwitterStart.

#[export] Instance outside_call_eq_dec : EqDecision outside_call.
Proof. solve_decision. Defined.

(** What each call does when it is made: it returns a value, which the tools
    treat as opaque, or it throws. *)
Definition world : Type := outside_call -> completion string.

(** The object a tool returns. *)
Record tool_result := {
  success : bool;
  result : option string;
  message : option string;
  error : option string;
}.

(** A state and exception monad over the log of the calls made. *)
Definition T (A : Type) : Type := list outside_call -> completion A * list outside_call.

Definition t_ret {A} (a : A) : T A := fun l => (Normal a, l).

Definition t_bind {A B} (c : T A) (k : A -> T B) : T B :=
  fun l =>
    match c l with
    | (Normal a, l') => k a l'
    | (Throw t, l') => (Throw t, l')
    end.

#[export] Instance T_ret : MRet T := @t_ret.
#[export] Instance T_bind : MBind T := fun A B k c => t_bind c k.

Definition t_catch {A} (c : T A) (handler : thrown -> T A) : T A :=
  fun l =>
    match c l with
    | (Normal a, l') => (Normal a, l')
    | (Throw t, l') => handler t l'
    end.

Definition make (w : world) (c : outside_call) : T string :=
  fun l => (w c, l ++ [c]).

(** [return { success: false, error: error.message }] *)
Definition failed (error : thrown) : T tool_result :=
  fun l =>
    (match message_of error with
     | Normal text =>
         Normal {| success := false; result := None; message := None;
                   error := text |}
     | Throw t => Throw t
     end, l).

Definition done_with (text : string) : tool_result :=
  {| success := true; result := None; message := Some text; error := None |}.

Definition TelegramScrapingTool_execute (w : world) : T tool_result :=
  t_catch
    (make w NewTelegramChannelScraper;;
     make w InitializeDatabase;;
     make w DiscoverChannels;;
     make w LoadChannels;;
     make w (ScrapeAllChannels 1000);;
     mret (done_with "Telegram scraping completed successfully"))
    (fun error => failed error).

Definition OutlightScrapingTool_execute (w : world) : T tool_result :=
  t_catch
    (make w NewOutlightScraper;;
     make w OutlightMain;;
     mret (done_with "Outlight.fun scraping completed successfully"))
    (fun error => failed error).

Definition PatternAnalysisTool_execute (w : world) : T tool_result :=
  t_catch
    (make w NewMemecoinPatternAnalyzer;;
     result_ ← make w RunComprehensiveAnalysis;
     mret {| success := true; result := Some result_;
             message := Some "Pattern analysis completed successfully";
             error := None |})
    (fun error => failed error).

Definition MarketDataTool_execute (w : world) : T tool_result :=
  t_catch
    (make w (ImportModule "../bitquery/scripts/memecoins.mjs");;
     make w (ImportModule "../bitquery/scripts/prices.mjs");;
     make w (ImportModule "../bitquery/scripts/market-data.mjs");;
     make w FetchAndPushMemecoins;;
     make w FetchAndPushPrices;;
     make w FetchMarketData;;
     mret (done_with "Market data collection completed successfully"))
    (fun error => failed error).

Definition TwitterAPITool_execute (w : world) : T tool_result :=
  t_catch
    (make w NewTwitterIntegration;;
     make w TestConnection;;
     make w TwitterStart;;
     mret (done_with "Twitter integration started successfully"))
    (fun error => failed error).

Definition DashboardSyncTool_execute (w : world) : T tool_result :=
  t_catch
    (mret (done_with "Dashboard updated successfully"))
    (fun error => failed error).

(** The tools that do the work of a stage, apart from the TikTok tool. *)
Inductive tool :=
| TelegramScrapingTool
| OutlightScrapingTool
| PatternAnalysisTool
| MarketDataTool
| TwitterAPITool
| DashboardSyncTool.

Definition execute (t : tool) (w : world) : completion tool_result * list outside_call :=
  match t with
  | TelegramScrapingTool => TelegramScrapingTool_execute w []
  | OutlightScrapingTool => OutlightScrapingTool_execute w []
  | PatternAnalysisTool => PatternAnalysisTool_execute w []
  | MarketDataTool => MarketDataTool_execute w []
  | TwitterAPITool => TwitterAPITool_execute w []
  | DashboardSyncTool => DashboardSyncTool_execute w []
  end.

End Tools.

(** ** The session service of [createSessionService] *)

Module SessionService.

(** A JSON object, as its entries. *)
Definition json : Type := list (string * string).

(** A row of [workflow_sessions] as a request carries it or an answer
    returns it; a field that is not given is [None]. *)
Record session_row := {
  session_id : string;
  session_data : option json;
  status : option string;
  created_at : option Z;
  updated_at : option Z;
}.

Record pg_error := {
  code : string;
  pg_message : string;
}.

(** The [{ data, error }] answer of a request that ends in [.single()]. *)
Record response := {
  data : option session_row;
  error : option pg_error;
}.

Inductive request :=
| Upsert (row : session_row)
| SelectBySession (sessionId : string)
| DeleteBySession (sessionId : string).

(** The store client: a request is answered, or the call throws. *)
Definition client : Type := request -> completion response.

(** The methods read the client from [this.supabase]; [this] is the object
    the method is called on, which has a [supabase] property or not. *)
Definition receiver : Type := option client.

Definition ask (this_supabase : receiver) (r : request) : completion response :=
  match this_supabase with
  | None => Throw (Error "Cannot read properties of undefined (reading 'from')")
  | Some c => c r
  end.

(** [if (error) throw error; return data;] *)
Definition data_or_throw (r : response) : completion (option session_row) :=
  match error r with
  | Some err => Throw (Error (pg_message err))
  | None => Normal (data r)
  end.

Definition createSession (this_supabase : receiver) (now : Z) (sessionId : string)
    (initialData : option json) : completion (option session_row) :=
  let attempt :=
    match ask this_supabase
            (Upsert {| session_id := sessionId;
                       session_data := Some (default [] initialData);
                       status := Some "active";
                       created_at := Some now;
                       updated_at := Some now |}) with
    | Throw t => Throw t
    | Normal r => data_or_throw r
    end in
  match attempt with
  | Normal d => Normal d
  | Throw _ => Normal None
  end.

Definition getSession (this_supabase : receiver) (sessionId : string)
    : completion json :=
  let attempt :=
    match ask this_supabase (SelectBySession sessionId) with
    | Throw t => Throw t
    | Normal r =>
        match error r with
        | Some err =>
            if bool_decide (code err <> "PGRST116")
            then Throw (Error (pg_message err))
            else Normal (default [] (data r ≫= session_data))
        | None => Normal (default [] (data r ≫= session_data))
        end
    end in
  match attempt with
  | Normal d => Normal d
  | Throw _ => Normal []
  end.

Definition saveSession (this_supabase : receiver) (now : Z) (sessionId : string)
    (sessionData : json) : completion (option session_row) :=
  let attempt :=
    match ask this_supabase
            (Upsert {| session_id := sessionId;
                       session_data := Some sessionData;
                       status := None;
                       created_at := None;
                       updated_at := Some now |}) with
    | Throw t => Throw t
    | Normal r => data_or_throw r
    end in
  match attempt with
  | Normal d => Normal d
  | Throw _ => Normal None
  end.

Definition deleteSession (this_supabase : receiver) (sessionId : string)
    : completion bool :=
  let attempt :=
    match ask this_supabase (DeleteBySession sessionId) with
    | Throw t => Throw t
    | Normal r =>
        match error r with
        | Some err => Throw (Error (pg_message err))
        | None => Normal true
        end
    end in
  match attempt with
  | Normal b => Normal b
  | Throw _ => Normal false
  end.

(** The object literal that [createSessionService] returns holds the four
    methods and no [supabase] property: a method called on it reads
    [undefined] from [this.supabase]. *)
Definition createSessionService : receiver := None.

End SessionService.

(** ** [install-bitquery-deps.mjs] *)

Module InstallBitqueryDeps.

(** An absolute, normalized path, as its components. *)
Definition path : Type := list string.

(** [path.join(dir, '..', name)]: one level up, never above the root, and
    then down into [name]. *)
Definition join_up (dir : path) (name : string) : path :=
  removelast dir ++ [name].

(** What the process meets: [process.chdir] and [execSync] throw or not. *)
Record system := {
  chdir_error : path -> option string;
  yarn_install_error : path -> option string;
}.

Inductive command :=
| Chdir (to : path)
| YarnInstall (cwd : path).

(** How the script ends. *)
Inductive ending :=
| Completed
| Exit (code : Z).

Record run := {
  ended : ending;
  cwd : path;
  commands : list command;
}.

Definition installBitqueryDependencies (sys : system) (dirname : path)
    (cwd0 : path) : run :=
  let bitqueryPath := join_up dirname "bitquery" in
  match chdir_error sys bitqueryPath with
  | Some _ =>
      {| ended := Exit 1; cwd := cwd0; commands := [Chdir bitqueryPath] |}
  | None =>
      match yarn_install_error sys bitqueryPath with
      | Some _ =>
          {| ended := Exit 1; cwd := bitqueryPath;
             commands := [Chdir bitqueryPath; YarnInstall bitqueryPath] |}
      | None =>
          match chdir_error sys dirname with
          | Some _ =>
              {| ended := Exit 1; cwd := bitqueryPath;
                 commands := [Chdir bitqueryPath; YarnInstall bitqueryPath;
                              Chdir dirname] |}
          | None =>
              {| ended := Completed; cwd := dirname;
                 commands := [Chdir bitqueryPath; YarnInstall bitqueryPath;
                              Chdir dirname] |}
          end
      end
  end.

End InstallBitqueryDeps.

(** ** Further vocabulary and inputs *)

Module Coverage.
Import TikTokScrapingTool.

(** Whether a string begins with a decimal digit. *)
Definition starts_with_digit (s : string) : bool :=
  match s with
  | String c _ => JS.is_digit c
  | EmptyString => false
  end.

(** Whether a string holds the code unit 0. *)
Fixpoint has_nul (s : string) : bool :=
  match s with
  | EmptyString => false
  | String c r => (JS.code c =? 0)%N || has_nul r
  end.

(** An element that cannot add to the results while [seen] is the seen-set:
    it yields no data, no url, or a url that has been seen. *)
Definition stale_element (seen : gset string) (el : extraction) : Prop :=
  match el with
  | ExtractThrows _ => False
  | NoVideoData => True
  | VideoData v _ => video_url v = "" \/ video_url v ∈ seen
  end.

(** A look at the page that shows stale elements only. *)
Definition stale_snapshot (seen : gset string) (snap : snapshot) : Prop :=
  match snap with
  | PageThrows _ => False
  | Elements els => Forall (stale_element seen) els
  end.

(** Whether [storeVideos] passes over a video: its url has no video id, its
    record cannot be built, or the service refuses the upsert. *)
Definition passed_over (svc : service) (now : Z) (v : video) : bool :=
  match getTiktokId (video_url v) with
  | None => true
  | Some tiktokId =>
      match tiktokRecord now tiktokId v with
      | Throw _ => true
      | Normal record => upsert_error svc record
      end
  end.

(** The calls a tool makes when none of them throws. *)
Definition script (t : Tools.tool) : list Tools.outside_call :=
  match t with
  | Tools.TelegramScrapingTool =>
      [Tools.NewTelegramChannelScraper; Tools.InitializeDatabase;
       Tools.DiscoverChannels; Tools.LoadChannels; Tools.ScrapeAllChannels 1000]
  | Tools.OutlightScrapingTool => [Tools.NewOutlightScraper; Tools.OutlightMain]
  | Tools.PatternAnalysisTool =>
      [Tools.NewMemecoinPatternAnalyzer; Tools.RunComprehensiveAnalysis]
  | Tools.MarketDataTool =>
      [Tools.ImportModule "../bitquery/scripts/memecoins.mjs";
       Tools.ImportModule "../bitquery/scripts/prices.mjs";
       Tools.ImportModule "../bitquery/scripts/market-data.mjs";
       Tools.FetchAndPushMemecoins; Tools.FetchAndPushPrices;
       Tools.FetchMarketData]
  | Tools.TwitterAPITool =>
      [Tools.NewTwitterIntegration; Tools.TestConnection; Tools.TwitterStart]
  | Tools.DashboardSyncTool => []
  end.

(** The agent framework builds workflows and runs them. *)
Definition adk_works : Pipeline.env :=
  {| Pipeline.adk_build := fun _ _ => None;
     Pipeline.adk_run := fun _ _ => Normal Fixtures.ok;
     Pipeline.agent_run := fun _ _ => Normal Fixtures.ok;
     Pipeline.tool_execute := fun _ _ => Normal Fixtures.ok;
     Pipeline.now := 1700000000000 |}.

(** The agent framework builds workflows, and running one throws. *)
Definition adk_run_throws : Pipeline.env :=
  {| Pipeline.adk_build := fun _ _ => None;
     Pipeline.adk_run := fun _ _ =>
       Throw (Error "this.workflow.run is not a function");
     Pipeline.agent_run := fun _ _ => Normal Fixtures.ok;
     Pipeline.tool_execute := fun _ _ => Normal Fixtures.ok;
     Pipeline.now := 1700000000000 |}.

(** A workflow built earlier and kept in [this.workflow]. *)
Definition kept_workflow : Pipeline.workflow :=
  {| Pipeline.wf_name := "iris_memecoin_pipeline";
     Pipeline.wf_agents := Pipeline.full_stage_order |}.

(** An orchestrator that was stopped after a run through the framework. *)
Definition stopped_with_workflow : Pipeline.orchestrator :=
  {| Pipeline.isRunning := false; Pipeline.workflow_ := Some kept_workflow;
     Pipeline.sessionId := "iris_session_1" |}.

(** The service refuses every upsert. *)
Definition svc_refusing : service :=
  {| upsert_error := fun _ => true; tokens_unavailable := false |}.

(** The token query comes back without data. *)
Definition svc_no_tokens : service :=
  {| upsert_error := fun _ => false; tokens_unavailable := true |}.

(** What a scroll loop has added to its results and to the seen-set. *)
Definition grown (maxResults : nat) (results : list video) (seen : gset string)
    (results' : list video) (seen' : gset string) : Prop :=
  exists new,
    results' = results ++ new
    /\ seen' = list_to_set (Vocabulary.urls new) ∪ seen
    /\ (forall v, v ∈ new -> video_url v <> "")
    /\ (length results <= maxResults -> length results' <= maxResults)%nat.

(** The key of [results] under which the manual workflows file a stage. *)
Definition manual_key (a : Pipeline.agent) : string :=
  match a with
  | Pipeline.marketDataFetcher => "marketData"
  | Pipeline.tiktokScraper => "tiktokScraping"
  | Pipeline.telegramScraper => "telegramScraping"
  | Pipeline.outlightScraper => "outlightScraping"
  | Pipeline.patternAnalyzer => "patternAnalysis"
  | Pipeline.twitterAlerts => "twitterAlerts"
  | Pipeline.dashboardUpdater => "dashboardUpdate"
  end.

(** The mode with which the manual workflow runs the agent of a stage. *)
Definition manual_mode (a : Pipeline.agent) : string :=
  match a with
  | Pipeline.marketDataFetcher => "full_collection"
  | Pipeline.tiktokScraper => "full_scraping"
  | Pipeline.telegramScraper => "full_scraping"
  | Pipeline.outlightScraper => "full_discovery"
  | Pipeline.patternAnalyzer => "comprehensive_analysis"
  | Pipeline.twitterAlerts => "alert_generation"
  | Pipeline.dashboardUpdater => "full_update"
  end.

(** The tools reject, in a mode, only with values whose [message] can be
    read, that is with values other than [null] and [undefined]. *)
Definition tools_reject_readably (e : Pipeline.env) (mode : string)
    (stages : list Pipeline.agent) : Prop :=
  forall a t, In a stages -> Pipeline.tool_execute e a mode = Throw t ->
    exists text, message_of t = Normal text.

(** The workflow a successful build returns. *)
Definition built (name : string) (agents : list Pipeline.agent) : Pipeline.workflow :=
  {| Pipeline.wf_name := name; Pipeline.wf_agents := agents |}.

(** The store was reached, answered the request without an error, and sent
    [row] as its data. *)
Definition answered (this_supabase : SessionService.receiver)
    (r : SessionService.request) (row : option SessionService.session_row) : Prop :=
  exists c resp,
    this_supabase = Some c /\ c r = Normal resp
    /\ SessionService.error resp = None /\ SessionService.data resp = row.

(** Every call in a list returns. *)
Definition all_return (w : Tools.world) (l : list Tools.outside_call) : Prop :=
  Forall (fun c => exists v, w c = Normal v) l.

(** Two looks at a page that show nothing new for an empty seen-set. *)
Definition stale_feed : list snapshot :=
  [Elements [NoVideoData];
   Elements [VideoData (Fixtures.clip "" "12") (Normal None); NoVideoData]].

End Coverage.

(** * Properties *)

(** ** Orchestrator *)

Section OrchestratorFacts.
Import Pipeline.

(** Unfolds the monadic method bodies down to the outside calls. *)
Ltac run_method :=
  cbv [call this_at_calls Orchestrator.start Orchestrator.createWorkflow
       Orchestrator.runManualWorkflow Orchestrator.runPeriodicAnalysis
       IndividualRevision.start IndividualRevision.createWorkflow
       IndividualRevision.runAgentsIndividually IndividualRevision.step
       IndividualRevision.runPeriodicAnalysis
       try_catch mbind M_bind bind mret M_ret ret throw build emit lift
       read_message run_agent run_workflow execute_tool get_this
       set_isRunning set_workflow new_results get_results set_result
       this results log at_calls isRunning workflow_ sessionId].

(** Splits on the completion of the next outside call, or on whether the
    message of a caught value can be read. *)
Ltac next_call :=
  match goal with
  | |- context [match agent_run ?e ?a ?m with _ => _ end] =>
      destruct (agent_run e a m) eqn:?
  | |- context [match tool_execute ?e ?a ?m with _ => _ end] =>
      destruct (tool_execute e a m) eqn:?
  | |- context [match adk_run ?e ?w ?m with _ => _ end] =>
      destruct (adk_run e w m) eqn:?
  | |- context [match adk_build ?e ?n ?l with _ => _ end] =>
      destruct (adk_build e n l) eqn:?
  | |- context [match message_of ?t with _ => _ end] =>
      destruct (message_of t) eqn:?
  end.

(** C1, at two inputs. When the build of the workflow rejects with
    [undefined], the [catch] block of [createWorkflow] throws at
    [adkError.message]: the same call of [start] aborts with that TypeError,
    runs no stage and returns no report. When the build throws an error and
    the Telegram agent throws, [start] returns the report of the manual
    strategy, but of the stage sequence only the first three stages have
    been executed. *)
Theorem start_does_not_always_run_the_stage_sequence :
  call (Orchestrator.start Fixtures.build_rejects_undefined) Fixtures.fresh
  = (Throw (Error "Cannot read properties of undefined (reading 'message')"),
     Fixtures.fresh,
     [EBuild "iris_memecoin_pipeline" full_stage_order])
  /\ exists rep l,
       call (Orchestrator.start Fixtures.telegram_throws) Fixtures.fresh
       = (Normal (VReport rep), Fixtures.started,
          EBuild "iris_memecoin_pipeline" full_stage_order :: l)
       /\ rep_mode rep = "manual"
       /\ rep_success rep = false
       /\ stages_attempted l
          = [marketDataFetcher; tiktokScraper; telegramScraper].
Proof.
  vm_compute. split; [reflexivity|]. eexists _, _. repeat split; reflexivity.
Qed.

(** What [start] does do when the build throws a value whose message can be
    read and no agent throws: the same call runs the seven agents of the
    manual workflow, each once, in the fixed order and with the modes of the
    manual workflow, returns its report and sets [isRunning]. *)
Lemma start_falls_back_on_a_readable_error
    (e : env) (o : orchestrator) (t : thrown) (text : option string) :
  isRunning o = false ->
  workflow_ o = None ->
  adk_build e "iris_memecoin_pipeline" full_stage_order = Some t ->
  message_of t = Normal text ->
  (forall a mode t', agent_run e a mode <> Throw t') ->
  exists rep,
    call (Orchestrator.start e) o
    = (Normal (VReport rep),
       {| isRunning := true; workflow_ := None; sessionId := sessionId o |},
       EBuild "iris_memecoin_pipeline" full_stage_order
       :: map (fun a => EAgentRun a (Coverage.manual_mode a)) full_stage_order)
    /\ rep_mode rep = "manual" /\ rep_success rep = true
    /\ map fst (rep_results rep) = map Coverage.manual_key full_stage_order.
Proof.
  intros Hrun Hwf Hbuild Hmsg Hno. destruct o as [r w s]. cbn in Hrun, Hwf.
  subst r w. unfold full_stage_order in *. run_method. rewrite Hbuild.
  cbv beta iota. rewrite Hmsg.
  repeat next_call; try (exfalso; eapply Hno; eassumption).
  cbn. eexists. repeat split; reflexivity.
Qed.

(** The manual workflow never attempts the stages out of order: what it
    attempts is a prefix of the fixed order, and the whole of it, with a
    report of success, when no agent throws. *)
Lemma runManualWorkflow_attempts_prefix (e : env) (o : orchestrator) :
  stages_attempted (call (Orchestrator.runManualWorkflow e) o).2
    `prefix_of` full_stage_order
  /\ ((forall a mode t, agent_run e a mode <> Throw t) ->
      exists rep,
        (call (Orchestrator.runManualWorkflow e) o).1.1 = Normal rep
        /\ stages_attempted (call (Orchestrator.runManualWorkflow e) o).2
           = full_stage_order
        /\ rep_success rep = true).
Proof.
  destruct o as [r w s]. run_method.
  repeat next_call; cbn;
    (split; [unfold full_stage_order;
             repeat first [apply prefix_cons | apply prefix_nil | reflexivity]|]);
    intros Hno; try (eexists; repeat split; reflexivity);
    exfalso; eapply Hno; eassumption.
Qed.

(** The manual periodic run attempts a prefix of the periodic order, and
    all of it when the message of what the build threw can be read and no
    agent throws. *)
Lemma periodic_manual_attempts_prefix
    (e : env) (o : orchestrator) (adkError : thrown) :
  isRunning o = true ->
  adk_build e "periodic_analysis" periodic_stage_order = Some adkError ->
  stages_attempted (call (Orchestrator.runPeriodicAnalysis e) o).2
    `prefix_of` periodic_stage_order
  /\ ((exists text, message_of adkError = Normal text) ->
      (forall a mode t, agent_run e a mode <> Throw t) ->
      stages_attempted (call (Orchestrator.runPeriodicAnalysis e) o).2
      = periodic_stage_order).
Proof.
  destruct o as [r w s]. cbn. intros -> Hbuild.
  unfold periodic_stage_order in *. run_method. rewrite Hbuild.
  repeat next_call; cbn;
    (split; [repeat first [apply prefix_cons | apply prefix_nil | reflexivity]|]);
    intros [text Htext] Hno; try reflexivity; try congruence;
    exfalso; eapply Hno; eassumption.
Qed.

(** C2, the manual workflow at an input where the Telegram stage throws:
    the error is recorded in the report, but the stages after it (discovery,
    correlation, alerting, dashboard) are neither attempted nor present in
    the results. *)
Theorem runManualWorkflow_stops_at_throwing_stage :
  exists rep l,
    call (Orchestrator.start Fixtures.telegram_throws) Fixtures.fresh
    = (Normal (VReport rep), Fixtures.started, l)
    /\ rep_error rep = Some "FLOOD_WAIT"
    /\ stages_attempted l = [marketDataFetcher; tiktokScraper; telegramScraper]
    /\ map fst (rep_results rep) = ["marketData"; "tiktokScraping"].
Proof. vm_compute. eexists _, _. repeat split; reflexivity. Qed.

(** C9, at a full manual run whose Telegram stage throws and at a periodic
    manual run whose discovery stage throws: the run attempts only the
    stages up to the one that throws, not the seven (respectively four)
    stages of the fixed order; the sibling revision attempts all of them on
    the same inputs. *)
Theorem manual_runs_attempt_only_a_prefix :
  stages_attempted
    (call (Orchestrator.start Fixtures.telegram_throws) Fixtures.fresh).2
  = [marketDataFetcher; tiktokScraper; telegramScraper]
  /\ stages_attempted
       (call (Orchestrator.runPeriodicAnalysis Fixtures.outlight_throws)
             Fixtures.started).2
     = [outlightScraper]
  /\ stages_attempted
       (call (IndividualRevision.start Fixtures.telegram_throws) Fixtures.fresh).2
     = full_stage_order
  /\ stages_attempted
       (call (IndividualRevision.runPeriodicAnalysis Fixtures.outlight_throws)
             Fixtures.started).2
     = periodic_stage_order.
Proof. vm_compute. repeat split; reflexivity. Qed.

(** The order handed to the agent framework is the fixed order, for the
    full and for the periodic workflow. *)
Lemma adk_workflows_follow_the_stage_orders (e : env) (o : orchestrator) :
  (isRunning o = false -> workflow_ o = None ->
   head (call (Orchestrator.start e) o).2
   = Some (EBuild "iris_memecoin_pipeline" full_stage_order))
  /\ (isRunning o = true ->
      head (call (Orchestrator.runPeriodicAnalysis e) o).2
      = Some (EBuild "periodic_analysis" periodic_stage_order)).
Proof.
  destruct o as [r w s]. split.
  - cbn. intros -> ->. run_method. repeat next_call; reflexivity.
  - cbn. intros ->. run_method. repeat next_call; reflexivity.
Qed.





(** A periodic run never writes a field of the orchestrator. *)
Lemma runPeriodicAnalysis_keeps_this (e : env) (o : orchestrator) :
  (call (Orchestrator.runPeriodicAnalysis e) o).1.2 = o.
Proof.
  destruct o as [[] w s]; run_method; repeat next_call; reflexivity.
Qed.

(** C3, as the specification states it, fails: a tick that arrives while a
    periodic run is still in flight is not skipped; it begins a second run,
    so two runs of the same orchestrator overlap. *)
Lemma periodic_runs_overlap :
  let p0 := {| Orchestrator.orch := Fixtures.started; Orchestrator.in_flight := 0 |} in
  let p1 := Orchestrator.on_event p0 (Orchestrator.Tick Fixtures.no_adk) in
  let p2 := Orchestrator.on_event p1 (Orchestrator.Tick Fixtures.no_adk) in
  Orchestrator.main Fixtures.no_adk Fixtures.fresh = Normal p0
  /\ Orchestrator.in_flight p1 = 1%nat
  /\ Orchestrator.in_flight p2 = 2%nat.
Proof. vm_compute. repeat split; reflexivity. Qed.

(** C3, amended. A timer tick begins a periodic run exactly when
    [isRunning] is set, that is once [start] has completed and until [stop]
    is called, whether or not an earlier run is still in flight; when the
    flag is clear the call returns [undefined] at once without any outside
    call. A periodic run leaves the flag as it found it. *)
Theorem periodic_tick_is_gated_by_isRunning
    (e : env) (p : Orchestrator.process) :
  Orchestrator.orch (Orchestrator.on_event p (Orchestrator.Tick e))
  = Orchestrator.orch p
  /\ Orchestrator.in_flight (Orchestrator.on_event p (Orchestrator.Tick e))
     = (if isRunning (Orchestrator.orch p)
        then S (Orchestrator.in_flight p)
        else Orchestrator.in_flight p)
  /\ (if isRunning (Orchestrator.orch p)
      then head (call (Orchestrator.runPeriodicAnalysis e) (Orchestrator.orch p)).2
           = Some (EBuild "periodic_analysis" periodic_stage_order)
      else call (Orchestrator.runPeriodicAnalysis e) (Orchestrator.orch p)
           = (Normal VUndefined, Orchestrator.orch p, [])).
Proof.
  destruct p as [[[] w s] n]; unfold Orchestrator.on_event;
    cbn [Orchestrator.orch Orchestrator.in_flight isRunning];
    run_method; repeat next_call; repeat split; reflexivity.
Qed.

(** X27. After [stop], ticks begin nothing. *)
Lemma tick_after_stop_is_skipped (e : env) (o : orchestrator) (n : nat) :
  Orchestrator.on_event
    {| Orchestrator.orch := (call stop o).1.2; Orchestrator.in_flight := n |}
    (Orchestrator.Tick e)
  = {| Orchestrator.orch := (call stop o).1.2; Orchestrator.in_flight := n |}.
Proof. destruct o as [r w s]. reflexivity. Qed.

End OrchestratorFacts.

(** ** The store writes of the TikTok tool *)

Section StoreFacts.
Import TikTokScrapingTool Vocabulary.

Lemma add_token_lookup (acc : gmap string (list Z)) (t : token) (s : string) :
  add_token acc t !! s
  = if decide (symbol t = s)
    then Some (default [] (acc !! s) ++ [token_id t])
    else acc !! s.
Proof.
  unfold add_token. case_decide as Hs.
  - subst s. destruct (acc !! symbol t) eqn:E; cbn; by rewrite lookup_insert_eq.
  - destruct (acc !! symbol t) eqn:E; by rewrite lookup_insert_ne.
Qed.

Lemma fold_add_token_lookup (toks : list token) (acc : gmap string (list Z)) (s : string) :
  fold_left add_token toks acc !! s
  = match ids_of s toks with
    | [] => acc !! s
    | ids => Some (default [] (acc !! s) ++ ids)
    end.
Proof.
  revert acc. induction toks as [|t toks IH]; intros acc; [done|].
  cbn [fold_left]. rewrite IH, add_token_lookup. unfold ids_of.
  rewrite filter_cons. case_decide as Hs; cbn.
  - destruct (token_id <$> filter _ toks) eqn:E; cbn; [done|].
    by rewrite <- app_assoc.
  - done.
Qed.

Lemma symbolToTokens_lookup (toks : list token) (s : string) :
  symbolToTokens toks !! s
  = match ids_of s toks with [] => None | ids => Some ids end.
Proof.
  unfold symbolToTokens. rewrite fold_add_token_lookup, lookup_empty.
  by destruct (ids_of s toks).
Qed.

Lemma fold_push_mentions tiktokId mentionAt (m : gmap string (list Z)) entries acc :
  fold_left (push_mentions tiktokId mentionAt m) entries acc
  = acc ++ flat_map (fun entry : string * Z =>
             mention tiktokId mentionAt entry.2 <$> default [] (m !! entry.1)) entries.
Proof.
  revert acc. induction entries as [|entry entries IH]; intros acc; cbn.
  - by rewrite app_nil_r.
  - rewrite IH. unfold push_mentions. destruct (m !! entry.1); cbn.
    + by rewrite <- app_assoc.
    + done.
Qed.

Lemma elem_of_ids_of (s : string) (toks : list token) (i : Z) :
  i ∈ ids_of s toks <-> exists t, t ∈ toks /\ symbol t = s /\ token_id t = i.
Proof.
  unfold ids_of. rewrite list_elem_of_fmap. split.
  - intros (t & -> & [Hs Ht]%list_elem_of_filter). eauto.
  - intros (t & Ht & Hs & <-). exists t. split; [done|].
    apply list_elem_of_filter. done.
Qed.

Lemma elem_of_mentionsData tiktokId mentionAt toks entries (r : mention_row) :
  r ∈ mentionsData tiktokId mentionAt toks entries
  <-> exists sym cnt t,
        (sym, cnt) ∈ entries /\ t ∈ toks /\ symbol t = sym
        /\ r = mention tiktokId mentionAt cnt (token_id t).
Proof.
  unfold mentionsData. rewrite fold_push_mentions. cbn [app].
  rewrite list_elem_of_In, in_flat_map. split.
  - intros ([sym cnt] & Hin & Hr). apply list_elem_of_In in Hin, Hr.
    cbn in Hr. apply list_elem_of_fmap in Hr as (i & -> & Hi).
    rewrite symbolToTokens_lookup in Hi.
    assert (i ∈ ids_of sym toks) as Hi'.
    { destruct (ids_of sym toks); [by apply not_elem_of_nil in Hi | done]. }
    apply elem_of_ids_of in Hi' as (t & Ht & Hs & <-). eauto 10.
  - intros (sym & cnt & t & Hin & Ht & Hs & ->).
    exists (sym, cnt). split; [by apply list_elem_of_In|].
    apply list_elem_of_In. cbn. apply list_elem_of_fmap. exists (token_id t).
    split; [done|]. rewrite symbolToTokens_lookup.
    assert (token_id t ∈ ids_of sym toks) as Hi by (apply elem_of_ids_of; eauto).
    destruct (ids_of sym toks); [by apply not_elem_of_nil in Hi | done].
Qed.

Lemma storeTokenMentions_rows svc now tiktokId c db :
  exists rows,
    storeTokenMentions svc now tiktokId c db
    = Normal {| tiktoks := tiktoks db; tokens := tokens db;
                mentions := mentions db ++ rows |}
    /\ rows = match c with
              | Some c' =>
                  match tickers c', select_tokens svc db with
                  | Some entries, Some toks => mentionsData tiktokId now toks entries
                  | _, _ => []
                  end
              | None => []
              end.
Proof.
  destruct db as [tk to me]. unfold storeTokenMentions, storeTokenMentions_try.
  destruct c as [c'|]; [|exists []; by rewrite app_nil_r].
  destruct (tickers c') as [entries|]; [|exists []; by rewrite app_nil_r].
  destruct (select_tokens svc _) as [toks|]; [|exists []; by rewrite app_nil_r].
  eexists; split; [|reflexivity].
  destruct (mentionsData _ _ _ _) eqn:E; cbn; [by rewrite app_nil_r | done].
Qed.

(** C5, as the specification states it, fails: recording the mentions of
    the same TikTok for the same tickers a second time leaves two rows for
    the same TikTok id and token. *)
Lemma mentions_are_duplicated_on_rerun :
  exists db1 db2,
    storeTokenMentions Fixtures.svc_ok 1700000000000 "7301"
      (Some Fixtures.foo_comments) Fixtures.db0 = Normal db1
    /\ storeTokenMentions Fixtures.svc_ok 1700007200000 "7301"
         (Some Fixtures.foo_comments) db1 = Normal db2
    /\ length (rows_for "7301" 1 (mentions db1)) = 1%nat
    /\ length (rows_for "7301" 1 (mentions db2)) = 2%nat.
Proof. eexists _, _. repeat split; reflexivity. Qed.

(** The rows of a call, entry by entry. *)
Lemma mentionsData_flat_map tiktokId mentionAt toks entries :
  mentionsData tiktokId mentionAt toks entries
  = flat_map (fun entry : string * Z =>
                mention tiktokId mentionAt entry.2 <$> ids_of entry.1 toks)
      entries.
Proof.
  unfold mentionsData. rewrite fold_push_mentions. cbn [app].
  apply flat_map_ext. intros [sym cnt]. cbn [fst snd].
  rewrite symbolToTokens_lookup. by destruct (ids_of sym toks).
Qed.

Lemma storeTokenMentions_eq svc now tiktokId c db :
  storeTokenMentions svc now tiktokId c db
  = Normal
      {| tiktoks := tiktoks db; tokens := tokens db;
         mentions :=
           mentions db
           ++ flat_map (fun entry : string * Z =>
                          mention tiktokId now entry.2
                          <$> ids_of entry.1 (default [] (select_tokens svc db)))
                (default [] (c ≫= tickers)) |}.
Proof.
  destruct (storeTokenMentions_rows svc now tiktokId c db) as (rows & -> & ->).
  do 3 f_equal. destruct c as [c'|]; [|done]. cbn.
  destruct (tickers c') as [entries|]; [|done]. cbn.
  destruct (select_tokens svc db) as [toks|]; cbn.
  - apply mentionsData_flat_map.
  - clear. induction entries as [|entry entries IH]; [done|]. by cbn.
Qed.

(** The rows of a call for a TikTok and a token do not depend on the time of
    the call. *)
Lemma rows_for_flat_map tiktokId tokenId mentionAt toks entries :
  length (rows_for tiktokId tokenId
            (flat_map (fun entry : string * Z =>
                         mention tiktokId mentionAt entry.2 <$> ids_of entry.1 toks)
               entries))
  = length (filter (fun k => k = tokenId)
              (flat_map (fun entry : string * Z => ids_of entry.1 toks) entries)).
Proof.
  unfold rows_for. induction entries as [|entry entries IH]; [done|].
  cbn [flat_map]. rewrite !filter_app, !length_app, IH. f_equal.
  generalize (ids_of entry.1 toks). intros l.
  induction l as [|k l IHl]; [done|].
  rewrite fmap_cons, !filter_cons. cbn [m_tiktok_id m_token_id mention].
  destruct (decide (k = tokenId)) as [->|Hk].
  - rewrite decide_True by done. cbn. by rewrite IHl.
  - rewrite decide_False by (intros [_ ?]; done). done.
Qed.

(** C5, amended. Recording mentions is an insert. Each call keeps the rows
    that are in the table and appends, for each ticker entry in turn, one
    new row for each token that carries the symbol of the entry, with the
    given TikTok id, the count of the entry and the time of the call; a call
    without tickers, or whose token query comes back without data, writes
    nothing. A second call for the same TikTok and tickers appends the same
    rows once more, with its own time, so that each pair of TikTok id and
    token has twice as many new rows as after the first call. *)
Theorem storeTokenMentions_appends svc now now' tiktokId c db :
  let entries := default [] (c ≫= tickers) in
  let toks := default [] (select_tokens svc db) in
  let rows mentionAt :=
    flat_map (fun entry : string * Z =>
                mention tiktokId mentionAt entry.2 <$> ids_of entry.1 toks)
      entries in
  let db1 := {| tiktoks := tiktoks db; tokens := tokens db;
                mentions := mentions db ++ rows now |} in
  let db2 := {| tiktoks := tiktoks db; tokens := tokens db;
                mentions := (mentions db ++ rows now) ++ rows now' |} in
  storeTokenMentions svc now tiktokId c db = Normal db1
  /\ storeTokenMentions svc now' tiktokId c db1 = Normal db2
  /\ (c ≫= tickers = None \/ tokens_unavailable svc = true -> db1 = db)
  /\ (forall sym cnt t,
        tokens_unavailable svc = false ->
        (sym, cnt) ∈ entries -> t ∈ tokens db -> symbol t = sym ->
        mention tiktokId now cnt (token_id t) ∈ rows now
        /\ mention tiktokId now' cnt (token_id t) ∈ rows now')
  /\ (forall tokenId,
        length (rows_for tiktokId tokenId (mentions db2))
        = (length (rows_for tiktokId tokenId (mentions db))
           + 2 * length (rows_for tiktokId tokenId (rows now)))%nat).
Proof.
  cbv zeta. split; [apply storeTokenMentions_eq|].
  split; [by rewrite storeTokenMentions_eq|].
  split.
  { destruct db as [tk to me]. intros [Hnone | Hun]; cbn.
    - rewrite Hnone. cbn. by rewrite app_nil_r.
    - unfold select_tokens. rewrite Hun. cbn. f_equal.
      rewrite <- (app_nil_r me) at 2. f_equal.
      induction (default [] (c ≫= tickers)) as [|entry entries IH]; [done|].
      by cbn. }
  split.
  { intros sym cnt t Hav Hin Ht Hsym. unfold select_tokens. rewrite Hav. cbn.
    assert (token_id t ∈ ids_of sym (merge_sort token_le (tokens db))) as Hid.
    { apply elem_of_ids_of. exists t. split; [|done].
      by rewrite merge_sort_Permutation. }
    split; apply list_elem_of_In, in_flat_map; exists (sym, cnt);
      (split; [by apply list_elem_of_In|]);
      apply list_elem_of_In, list_elem_of_fmap_2, Hid. }
  intros tokenId. cbn [mentions].
  unfold rows_for at 1. rewrite !filter_app, !length_app.
  fold (rows_for tiktokId tokenId (mentions db)).
  match goal with
  | |- (_ + length ?a + length ?b)%nat = _ =>
      change a with (rows_for tiktokId tokenId
        (flat_map (fun entry : string * Z =>
                     mention tiktokId now entry.2
                     <$> ids_of entry.1 (default [] (select_tokens svc db)))
           (default [] (c ≫= tickers))));
      change b with (rows_for tiktokId tokenId
        (flat_map (fun entry : string * Z =>
                     mention tiktokId now' entry.2
                     <$> ids_of entry.1 (default [] (select_tokens svc db)))
           (default [] (c ≫= tickers))))
  end.
  rewrite !rows_for_flat_map. lia.
Qed.

(** C8. [storeTokenMentions] returns normally, and when the token table can
    be read the rows it adds are exactly one row per entry of the ticker
    mapping and token that carries the entry's symbol: an entry whose symbol
    matches no token adds no row and raises no error, and every entry whose
    symbol matches is recorded, once per matching token. *)
Theorem storeTokenMentions_skips_unknown_symbols svc now tiktokId c entries db :
  tokens_unavailable svc = false ->
  tickers c = Some entries ->
  exists rows,
    storeTokenMentions svc now tiktokId (Some c) db
    = Normal {| tiktoks := tiktoks db; tokens := tokens db;
                mentions := mentions db ++ rows |}
    /\ (forall r, r ∈ rows <->
          exists sym cnt t,
            (sym, cnt) ∈ entries /\ t ∈ tokens db /\ symbol t = sym
            /\ r = mention tiktokId now cnt (token_id t))
    /\ (forall sym cnt, (sym, cnt) ∈ entries ->
          (forall t, t ∈ tokens db -> symbol t <> sym) ->
          mentionsData tiktokId now (tokens db) [(sym, cnt)] = []).
Proof.
  intros Havail Htick.
  destruct (storeTokenMentions_rows svc now tiktokId (Some c) db)
    as (rows & Hst & Hrows).
  exists rows. split; [done|]. rewrite Htick in Hrows.
  unfold select_tokens in Hrows. rewrite Havail in Hrows. subst rows. split.
  - intros r. rewrite elem_of_mentionsData.
    by setoid_rewrite (merge_sort_Permutation token_le (tokens db)).
  - intros sym cnt Hin Hnone.
    destruct (mentionsData tiktokId now (tokens db) [(sym, cnt)]) as [|r rows] eqn:E;
      [done|].
    assert (r ∈ mentionsData tiktokId now (tokens db) [(sym, cnt)]) as Hr
      by (rewrite E; left).
    apply elem_of_mentionsData in Hr as (sym' & cnt' & t & Hin' & Ht & Hs & _).
    apply list_elem_of_singleton in Hin' as [= -> ->]. by destruct (Hnone t).
Qed.

Lemma storeTokenMentions_skips_unknown_symbols_witness :
  exists rows,
    storeTokenMentions Fixtures.svc_ok 1700000000000 "7301"
      (Some Fixtures.foo_comments) Fixtures.db0
    = Normal {| tiktoks := tiktoks Fixtures.db0; tokens := tokens Fixtures.db0;
                mentions := mentions Fixtures.db0 ++ rows |}
    /\ (forall r, r ∈ rows <->
          exists sym cnt t,
            (sym, cnt) ∈ [("FOO", 3); ("NOPE", 1)] /\ t ∈ tokens Fixtures.db0
            /\ symbol t = sym
            /\ r = mention "7301" 1700000000000 cnt (token_id t))
    /\ (forall sym cnt, (sym, cnt) ∈ [("FOO", 3); ("NOPE", 1)] ->
          (forall t, t ∈ tokens Fixtures.db0 -> symbol t <> sym) ->
          mentionsData "7301" 1700000000000 (tokens Fixtures.db0) [(sym, cnt)] = []).
Proof.
  apply (storeTokenMentions_skips_unknown_symbols Fixtures.svc_ok 1700000000000
           "7301" Fixtures.foo_comments [("FOO", 3); ("NOPE", 1)] Fixtures.db0);
    reflexivity.
Defined.

(** At the fixture the entry for FOO is recorded once for each of the two
    tokens called FOO, in the order of their ids, and the entry for NOPE,
    which no token carries, adds nothing. *)
Example storeTokenMentions_fixture :
  storeTokenMentions Fixtures.svc_ok 1700000000000 "7301"
    (Some Fixtures.foo_comments) Fixtures.db0
  = Normal {| tiktoks := []; tokens := tokens Fixtures.db0;
              mentions := [mention "7301" 1700000000000 3 1;
                           mention "7301" 1700000000000 3 3] |}.
Proof. reflexivity. Qed.

(** X28. When the token query comes back without data the [catch] swallows
    the error and nothing is written. *)
Lemma storeTokenMentions_without_tokens svc now tiktokId c db :
  tokens_unavailable svc = true ->
  storeTokenMentions svc now tiktokId c db = Normal db.
Proof.
  intros Hun. unfold storeTokenMentions, storeTokenMentions_try, select_tokens.
  rewrite Hun. by repeat case_match.
Qed.

(** *** Upserts *)

Lemma existsb_same_id (r : tiktok_row) (table : list tiktok_row) :
  existsb (same_id r) table = true <-> id r ∈ ids table.
Proof.
  rewrite existsb_exists. unfold ids, same_id. rewrite list_elem_of_fmap.
  split.
  - intros (x & Hx & Hid). apply bool_decide_eq_true in Hid.
    exists x. split; [done | by apply list_elem_of_In].
  - intros (x & Hid & Hx). exists x. split; [by apply list_elem_of_In|].
    by apply bool_decide_eq_true.
Qed.

Lemma ids_replace (r : tiktok_row) (table : list tiktok_row) :
  ids (map (fun x => if same_id r x then r else x) table) = ids table.
Proof.
  unfold ids, same_id. induction table as [|x table IH]; [done|].
  cbn. rewrite IH. f_equal. case_bool_decide; done.
Qed.

Lemma ids_upsert (r : tiktok_row) (table : list tiktok_row) :
  ids (upsert r table)
  = if existsb (same_id r) table then ids table else ids table ++ [id r].
Proof.
  unfold upsert. destruct (existsb _ _).
  - apply ids_replace.
  - unfold ids. by rewrite fmap_app.
Qed.

Lemma length_upsert (r : tiktok_row) (table : list tiktok_row) :
  length (upsert r table)
  = if existsb (same_id r) table then length table else S (length table).
Proof.
  unfold upsert. destruct (existsb _ _).
  - by rewrite length_map.
  - rewrite length_app. cbn. lia.
Qed.

Lemma NoDup_ids_upsert (r : tiktok_row) (table : list tiktok_row) :
  NoDup (ids table) -> NoDup (ids (upsert r table)).
Proof.
  intros Hnd. rewrite ids_upsert. destruct (existsb _ _) eqn:E; [done|].
  apply NoDup_app. split; [done|]. split; [|apply NoDup_singleton].
  intros x Hx ->%list_elem_of_singleton.
  apply existsb_same_id in Hx. congruence.
Qed.

Lemma elem_of_upsert_new (r : tiktok_row) (table : list tiktok_row) :
  r ∈ upsert r table.
Proof.
  unfold upsert. destruct (existsb _ _) eqn:E.
  - apply existsb_exists in E as (x & Hx & Hid).
    apply list_elem_of_fmap. exists x. rewrite Hid.
    split; [done | by apply list_elem_of_In].
  - apply elem_of_app. right. by apply list_elem_of_singleton.
Qed.

Lemma elem_of_upsert_same (r x : tiktok_row) (table : list tiktok_row) :
  x ∈ upsert r table -> id x = id r -> x = r.
Proof.
  unfold upsert. destruct (existsb _ _) eqn:E.
  - intros (y & Hxy & Hy)%list_elem_of_fmap Hid.
    unfold same_id in *. case_bool_decide as Hd; congruence.
  - intros [Hx | ->%list_elem_of_singleton]%elem_of_app Hid; [|done].
    assert (existsb (same_id r) table = true) as E'; [|congruence].
    apply existsb_same_id. rewrite <- Hid. unfold ids.
    apply list_elem_of_fmap. eauto.
Qed.

Lemma elem_of_upsert_other (r x : tiktok_row) (table : list tiktok_row) :
  id x <> id r -> x ∈ upsert r table <-> x ∈ table.
Proof.
  intros Hid. unfold upsert, same_id. destruct (existsb _ _).
  - rewrite list_elem_of_fmap. split.
    + intros (y & Hxy & Hy). case_bool_decide as Hd; congruence.
    + intros Hx. exists x. rewrite bool_decide_eq_false_2; done.
  - rewrite elem_of_app, list_elem_of_singleton.
    split; [intros [Hx | ->]; done | intros Hx; by left].
Qed.

(** *** [storeVideos] *)

Lemma tiktokRecord_fields now tiktokId v record :
  tiktokRecord now tiktokId v = Normal record ->
  id record = tiktokId
  /\ fetched_at record = now
  /\ row_views record
     = formatViews match views v with
                   | Some s => if bool_decide (s = "") then "0" else s
                   | None => "0"
                   end
  /\ row_comments record = match comments v with Some c => count c | None => 0 end.
Proof.
  unfold tiktokRecord.
  destruct (posted_timestamp v) as [t|];
    [destruct (t =? 0); [|destruct (toISOString _)]|];
    cbn; intros [= <-]; repeat split; reflexivity.
Qed.

Lemma tiktokRecord_clock now now' tiktokId v record :
  tiktokRecord now tiktokId v = Normal record ->
  exists record', tiktokRecord now' tiktokId v = Normal record'.
Proof.
  unfold tiktokRecord. destruct (posted_timestamp v) as [t|]; [|eauto].
  destruct (t =? 0); [eauto|]. destruct (toISOString _); [eauto | done].
Qed.

(** Storing a video touches [tiktoks] through the upsert only. *)
Lemma tiktoks_storeVideo svc now db v :
  tiktoks (storeVideo svc now db v)
  = match getTiktokId (video_url v) with
    | None => tiktoks db
    | Some tiktokId =>
        match tiktokRecord now tiktokId v with
        | Throw _ => tiktoks db
        | Normal record =>
            if upsert_error svc record then tiktoks db
            else upsert record (tiktoks db)
        end
    end.
Proof.
  unfold storeVideo. destruct (getTiktokId _) as [tiktokId|]; [|done].
  destruct (tiktokRecord _ _ _) as [record|]; [|done].
  destruct (upsert_error svc record); [done|].
  destruct (comments v) as [c|]; [|done]. destruct (tickers c); [|done].
  match goal with
  | |- context [storeTokenMentions ?a ?b ?c ?d ?e] =>
      destruct (storeTokenMentions_rows a b c d e) as (rows & -> & _)
  end.
  done.
Qed.

Lemma NoDup_ids_storeVideo svc now db v :
  NoDup (ids (tiktoks db)) -> NoDup (ids (tiktoks (storeVideo svc now db v))).
Proof.
  intros Hnd. rewrite tiktoks_storeVideo.
  repeat case_match; try done. by apply NoDup_ids_upsert.
Qed.

Lemma NoDup_ids_storeVideos svc now videos db :
  NoDup (ids (tiktoks db)) -> NoDup (ids (tiktoks (storeVideos svc now videos db))).
Proof.
  unfold storeVideos. revert db.
  induction videos as [|v videos IH]; intros db Hnd; [done|].
  cbn. by apply IH, NoDup_ids_storeVideo.
Qed.

Lemma ids_storeVideo_mono svc now db v (i : string) :
  i ∈ ids (tiktoks db) -> i ∈ ids (tiktoks (storeVideo svc now db v)).
Proof.
  intros Hi. rewrite tiktoks_storeVideo. repeat case_match; try done.
  rewrite ids_upsert. case_match; [done|]. apply elem_of_app. by left.
Qed.

(** Storing videos whose ids are all in the table leaves the row count as
    it is. *)
Lemma length_storeVideos_known svc now videos db :
  (forall v tiktokId, v ∈ videos -> getTiktokId (video_url v) = Some tiktokId ->
     tiktokId ∈ ids (tiktoks db)) ->
  length (tiktoks (storeVideos svc now videos db)) = length (tiktoks db).
Proof.
  unfold storeVideos. revert db.
  induction videos as [|v videos IH]; intros db Hknown; [done|].
  cbn. rewrite IH.
  - rewrite tiktoks_storeVideo.
    destruct (getTiktokId (video_url v)) as [tiktokId|] eqn:Hid; [|done].
    destruct (tiktokRecord _ _ _) as [record|] eqn:Hrec; [|done].
    destruct (upsert_error svc record); [done|].
    rewrite length_upsert.
    assert (existsb (same_id record) (tiktoks db) = true) as ->; [|done].
    apply existsb_same_id.
    apply tiktokRecord_fields in Hrec as (-> & _).
    apply (Hknown v); [by left | done].
  - intros w tiktokId Hw Hid. apply ids_storeVideo_mono.
    apply (Hknown w); [by right | done].
Qed.

(** C7. Storing a video whose TikTok id is already in [tiktoks], when the
    service accepts the upsert, leaves the ids and so the number of rows as
    they are, and puts the freshly built record (the time of this fetch, the
    views and the comment count of this scrape) in the place of the row with
    that id, other rows being untouched. Ids stay pairwise distinct through
    any [storeVideos], and storing videos whose ids are all known changes no
    row count: scraping an overlapping result set again adds no duplicate. *)
Theorem storeVideo_upserts_existing_row svc now db v tiktokId record :
  getTiktokId (video_url v) = Some tiktokId ->
  tiktokRecord now tiktokId v = Normal record ->
  tiktokId ∈ ids (tiktoks db) ->
  upsert_error svc record = false ->
  length (tiktoks (storeVideo svc now db v)) = length (tiktoks db)
  /\ ids (tiktoks (storeVideo svc now db v)) = ids (tiktoks db)
  /\ record ∈ tiktoks (storeVideo svc now db v)
  /\ (forall r, r ∈ tiktoks (storeVideo svc now db v) -> id r = tiktokId ->
        r = record)
  /\ (forall r, id r <> tiktokId ->
        r ∈ tiktoks (storeVideo svc now db v) <-> r ∈ tiktoks db)
  /\ fetched_at record = now
  /\ row_views record
     = formatViews match views v with
                   | Some s => if bool_decide (s = "") then "0" else s
                   | None => "0"
                   end
  /\ row_comments record = match comments v with Some c => count c | None => 0 end
  /\ (forall now' videos,
        NoDup (ids (tiktoks db)) ->
        NoDup (ids (tiktoks (storeVideos svc now' videos db))))
  /\ (forall now' videos,
        (forall w i, w ∈ videos -> getTiktokId (video_url w) = Some i ->
           i ∈ ids (tiktoks db)) ->
        length (tiktoks (storeVideos svc now' videos db)) = length (tiktoks db)).
Proof.
  intros Hid Hrec Hin Hok.
  pose proof (tiktokRecord_fields _ _ _ _ Hrec) as (Hrid & Hfetch & Hviews & Hcomm).
  assert (existsb (same_id record) (tiktoks db) = true) as Hex.
  { apply existsb_same_id. by rewrite Hrid. }
  rewrite tiktoks_storeVideo, Hid, Hrec, Hok.
  rewrite length_upsert, ids_upsert, Hex.
  repeat split; try done.
  - apply elem_of_upsert_new.
  - intros r Hr Hri. eapply elem_of_upsert_same; [done | congruence].
  - apply elem_of_upsert_other. congruence.
  - apply elem_of_upsert_other. congruence.
  - intros now' videos. apply NoDup_ids_storeVideos.
  - intros now' videos. apply length_storeVideos_known.
Qed.

(** Scraping [clip_a] again two hours later, with new view and comment
    counts. *)
Lemma storeVideo_upserts_existing_row_witness :
  let db1 := storeVideos Fixtures.svc_ok 1700000000000
               [Fixtures.clip_a; Fixtures.clip_b] Fixtures.db0 in
  let again := with_comments (Fixtures.clip "https://www.tiktok.com/@alice/video/7301" "40K")
                 (Some Fixtures.foo_comments) in
  exists record,
    tiktokRecord 1700007200000 "7301" again = Normal record
    /\ length (tiktoks (storeVideo Fixtures.svc_ok 1700007200000 db1 again)) = 2%nat
    /\ record ∈ tiktoks (storeVideo Fixtures.svc_ok 1700007200000 db1 again)
    /\ fetched_at record = 1700007200000
    /\ JS.to_Z (row_views record) = Some 40000
    /\ row_comments record = 12.
Proof.
  intros db1 again. eexists. split; [reflexivity|].
  edestruct (storeVideo_upserts_existing_row Fixtures.svc_ok 1700007200000 db1 again
               "7301" _ eq_refl eq_refl)
    as (Hlen & _ & Hin & _ & _ & Hfetch & _ & Hcomm & _).
  - vm_compute. left.
  - reflexivity.
  - split; [by rewrite Hlen|]. split; [exact Hin|].
    split; [exact Hfetch|]. split; [reflexivity | exact Hcomm].
Defined.

End StoreFacts.

(** ** The scroll loops of the TikTok tool *)

Section ScrapeFacts.
Import TikTokScrapingTool Vocabulary.

Lemma seen_inv_nil : seen_inv [] ∅.
Proof. split; [constructor | intros u Hu; by apply not_elem_of_nil in Hu]. Qed.

Lemma seen_inv_push (vs : list video) (seen : gset string) (v : video) c :
  seen_inv vs seen -> video_url v ∉ seen ->
  seen_inv (vs ++ [with_comments v c]) ({[video_url v]} ∪ seen).
Proof.
  intros [Hnd Hin] Hnew. unfold seen_inv, urls. rewrite fmap_app. cbn. split.
  - apply NoDup_app. split; [done|]. split; [|apply NoDup_singleton].
    intros u Hu ->%list_elem_of_singleton. by apply Hnew, Hin.
  - intros u [Hu | ->%list_elem_of_singleton]%elem_of_app; [|set_solver].
    apply elem_of_union_r. by apply Hin.
Qed.

Lemma seen_inv_weaken (pre vs : list video) (seen : gset string) :
  seen_inv (pre ++ vs) seen -> seen_inv pre seen.
Proof.
  unfold seen_inv, urls. rewrite fmap_app. intros [Hnd Hin]. split.
  - by apply NoDup_app in Hnd as [? _].
  - intros u Hu. apply Hin, elem_of_app. by left.
Qed.

Lemma scan_elements_inv maxResults els pre results seen :
  seen_inv (pre ++ results) seen ->
  seen_inv (pre ++ (scan_elements maxResults els results seen).1.2)
           (scan_elements maxResults els results seen).2.
Proof.
  revert results seen. induction els as [|el els IH]; intros results seen Hinv; [done|].
  cbn [scan_elements]. destruct (_ <=? _)%nat; [done|].
  destruct el as [msg| |v c]; [done | by apply IH |].
  destruct (bool_decide (video_url v <> "") && _) eqn:Hfresh; [|by apply IH].
  destruct c as [cs|msg]; [|done].
  apply andb_true_iff in Hfresh as [_ Hnew%bool_decide_eq_true].
  apply IH. rewrite app_assoc. by apply seen_inv_push.
Qed.

Lemma scroll_loop_inv maxResults feed pre results seen :
  seen_inv (pre ++ results) seen ->
  seen_inv (pre ++ (scroll_loop maxResults feed results seen).1.2)
           (scroll_loop maxResults feed results seen).2.
Proof.
  revert results seen. induction feed as [|snap feed IH]; intros results seen Hinv.
  - cbn. by destruct (_ <=? _)%nat.
  - cbn [scroll_loop]. destruct (_ <=? _)%nat; [done|].
    destruct snap as [msg|els]; [done|]. destruct els as [|el els]; [by apply IH|].
    pose proof (scan_elements_inv maxResults (el :: els) pre results seen Hinv) as Hscan.
    destruct (scan_elements maxResults (el :: els) results seen) as [[c results'] seen'].
    cbn in Hscan. destruct c; [|done].
    destruct (_ <=? _)%nat; [done | by apply IH].
Qed.

Lemma urls_only_url (l : list string) : urls (only_url <$> l) = l.
Proof.
  unfold urls. induction l as [|u l IH]; [done|].
  rewrite !fmap_cons, IH. reflexivity.
Qed.

(** A term never hands on a video whose url was in the seen-set when its
    scroll loop began. *)
Lemma scroll_loop_skips_seen maxResults feed seen (v : video) :
  v ∈ (scroll_loop maxResults feed [] seen).1.2 -> video_url v ∉ seen.
Proof.
  intros Hv Hseen.
  assert (seen_inv (only_url <$> elements seen) seen) as Hinv.
  { unfold seen_inv. rewrite urls_only_url. split; [apply NoDup_elements|].
    intros u Hu. by apply elem_of_elements. }
  rewrite <- (app_nil_r (only_url <$> elements seen)) in Hinv.
  apply (scroll_loop_inv maxResults feed) in Hinv as [Hnd _].
  unfold urls in Hnd. rewrite fmap_app in Hnd.
  apply NoDup_app in Hnd as (_ & Hdisj & _).
  apply (Hdisj (video_url v)).
  - fold (urls (only_url <$> elements seen)). rewrite urls_only_url.
    by apply elem_of_elements.
  - by apply list_elem_of_fmap_2.
Qed.

Lemma for_terms_inv process svc now terms maxResults st :
  (forall term seen pre,
      seen_inv pre seen ->
      seen_inv (pre ++ (process term maxResults seen).1.2)
               (process term maxResults seen).2) ->
  seen_inv (emitted st) (processedUrls st) ->
  seen_inv (emitted (for_terms process svc now terms maxResults st).2)
           (processedUrls (for_terms process svc now terms maxResults st).2).
Proof.
  intros Hproc. revert st. induction terms as [|term terms IH]; intros st Hinv; [done|].
  cbn [for_terms].
  pose proof (Hproc term (processedUrls st) (emitted st) Hinv) as Hstep.
  destruct (process term maxResults (processedUrls st)) as [[status videos] seen'].
  cbn in Hstep. destruct status.
  - by apply IH.
  - cbn. by eapply seen_inv_weaken.
Qed.

Lemma processSearchTerm_inv page keyword maxResults seen pre :
  seen_inv pre seen ->
  seen_inv (pre ++ (processSearchTerm page keyword maxResults seen).1.2)
           (processSearchTerm page keyword maxResults seen).2.
Proof.
  intros Hinv. apply scroll_loop_inv. by rewrite app_nil_r.
Qed.

Lemma processHashtagTerm_inv page keyword maxResults seen pre :
  seen_inv pre seen ->
  seen_inv (pre ++ (processHashtagTerm page keyword maxResults seen).1.2)
           (processHashtagTerm page keyword maxResults seen).2.
Proof.
  intros Hinv. apply scroll_loop_inv. by rewrite app_nil_r.
Qed.

Lemma execute_inv svc now page db0 :
  seen_inv (emitted (execute svc now page db0).2)
           (processedUrls (execute svc now page db0).2).
Proof.
  unfold execute. destruct (launch_error page); [apply seen_inv_nil|].
  pose proof (for_terms_inv (processSearchTerm page) svc now searchTerms 100
                {| totalVideos := 0; processedUrls := ∅; db := db0; emitted := [] |}
                (fun term seen pre => processSearchTerm_inv page term 100 seen pre)
                seen_inv_nil) as H1.
  destruct (for_terms (processSearchTerm page) _ _ _ _ _) as [[] st1]; [|done].
  pose proof (for_terms_inv (processHashtagTerm page) svc now hashtagTerms 200 st1
                (fun term seen pre => processHashtagTerm_inv page term 200 seen pre)
                H1) as H2.
  destruct (for_terms (processHashtagTerm page) _ _ _ _ _) as [[] st2]; [|done].
  by destruct (close_error page); [destruct (close_again_error page)|].
Qed.


Lemma NoDup_fmap_count {A B} `{EqDecision B} (f : A -> B) (l : list A) (x : A) :
  NoDup (f <$> l) -> x ∈ l ->
  length (filter (fun y => f y = f x) l) = 1%nat.
Proof.
  induction l as [|y l IH]; intros Hnd Hx; [by apply not_elem_of_nil in Hx|].
  rewrite fmap_cons in Hnd. apply NoDup_cons in Hnd as [Hy Hnd].
  rewrite filter_cons. case_decide as Hfy.
  - cbn. f_equal. apply length_zero_iff_nil.
    destruct (filter _ l) as [|z zs] eqn:E; [done|].
    assert (z ∈ filter (fun y0 => f y0 = f x) l) as Hz by (rewrite E; left).
    apply list_elem_of_filter in Hz as [Hfz Hz].
    destruct Hy. rewrite Hfy, <- Hfz. by apply list_elem_of_fmap_2.
  - apply IH; [done|]. apply elem_of_cons in Hx as [->|Hx]; done.
Qed.

(** C6. Whatever the pages show and however far the invocation has got, the
    videos one call of [execute] has handed on carry pairwise distinct urls:
    each of them is the only emitted record with its url, across all search
    terms and hashtags, and its url is in the seen-set of the call. *)
Theorem execute_emits_each_url_once svc now page db0 :
  NoDup (urls (emitted (execute svc now page db0).2))
  /\ (forall v, v ∈ emitted (execute svc now page db0).2 ->
        length (filter (fun w => video_url w = video_url v)
                  (emitted (execute svc now page db0).2)) = 1%nat
        /\ video_url v ∈ processedUrls (execute svc now page db0).2).
Proof.
  destruct (execute_inv svc now page db0) as [Hnd Hseen].
  split; [done|]. intros v Hv. split.
  - by apply NoDup_fmap_count.
  - apply Hseen. by apply list_elem_of_fmap_2.
Qed.

(** On pages that overlap, within the search phase and between the search
    and the hashtag phase, each video comes out once. *)
Example execute_overlapping_pages :
  let '(result, st) :=
    execute Fixtures.svc_ok 1700000000000 Fixtures.overlapping_pages Fixtures.db0 in
  result = Some (Normal {| success := true; total := Some 4%nat; error := None |})
  /\ urls (emitted st)
     = [ "https://www.tiktok.com/@alice/video/7301";
         "https://www.tiktok.com/@bob/video/7302";
         "https://www.tiktok.com/@carol/video/7303";
         "https://www.tiktok.com/@dave/video/7304" ]
  /\ ids (tiktoks (db st)) = ["7301"; "7302"; "7303"; "7304"].
Proof. vm_compute. repeat split; reflexivity. Qed.

End ScrapeFacts.

(** ** Integers as Numbers *)

Section NumberFacts.
Import Vocabulary.

Lemma digits2_pos_size (p : positive) : digits2_pos p = Pos.size p.
Proof. induction p; cbn; congruence. Qed.

(** [p] has [d] binary digits exactly when it lies between [2^(d-1)] and [2^d]. *)
Lemma digits2_pos_bounds (p : positive) :
  2 ^ (Zpos (digits2_pos p) - 1) <= Zpos p < 2 ^ Zpos (digits2_pos p).
Proof.
  induction p as [p IH|p IH|]; cbn [digits2_pos].
  - rewrite Pos2Z.inj_succ, Z.pow_succ_r by lia.
    replace (Z.succ (Zpos (digits2_pos p)) - 1) with (Z.succ (Zpos (digits2_pos p) - 1)) by lia.
    rewrite Z.pow_succ_r by lia. lia.
  - rewrite Pos2Z.inj_succ, Z.pow_succ_r by lia.
    replace (Z.succ (Zpos (digits2_pos p)) - 1) with (Z.succ (Zpos (digits2_pos p) - 1)) by lia.
    rewrite Z.pow_succ_r by lia. lia.
  - cbn. lia.
Qed.

Lemma digits2_pos_unique (p : positive) (d : Z) :
  2 ^ (d - 1) <= Zpos p < 2 ^ d -> Zpos (digits2_pos p) = d.
Proof.
  intros [Hlo Hhi]. pose proof (digits2_pos_bounds p) as [Hlo' Hhi'].
  assert (0 < d).
  { destruct (Z.lt_ge_cases 0 d) as [|Hd]; [done|].
    assert (2 ^ d <= 2 ^ 0) by (apply Z.pow_le_mono_r; lia). cbn in *; lia. }
  destruct (Z.lt_trichotomy (Zpos (digits2_pos p)) d) as [Hlt | [Heq | Hgt]]; [|done|].
  - assert (2 ^ Zpos (digits2_pos p) <= 2 ^ (d - 1)) by (apply Z.pow_le_mono_r; lia). lia.
  - assert (2 ^ d <= 2 ^ (Zpos (digits2_pos p) - 1)) by (apply Z.pow_le_mono_r; lia). lia.
Qed.

Lemma Zpos_iter_xO (m d : positive) :
  Zpos (Pos.iter xO m d) = Zpos m * 2 ^ Zpos d.
Proof.
  rewrite (Pos.iter_swap_gen _ _ Zpos xO (Z.mul 2)) by reflexivity.
  change (Pos.iter (Z.mul 2) (Zpos m) d) with (Z.shiftl (Zpos m) (Zpos d)).
  apply Z.shiftl_mul_pow2. lia.
Qed.

(** Shifting out [n] zero bits is exact. *)
Lemma iter_shr_1_exact (n : positive) : forall q : positive,
  SpecFloat.iter_pos shr_1 n {| shr_m := Zpos q * 2 ^ Zpos n; shr_r := false; shr_s := false |}
  = {| shr_m := Zpos q; shr_r := false; shr_s := false |}.
Proof.
  assert (Hone : forall q : positive,
    shr_1 {| shr_m := Zpos q * 2; shr_r := false; shr_s := false |}
    = {| shr_m := Zpos q; shr_r := false; shr_s := false |}).
  { intros q. replace (Zpos q * 2) with (Zpos (q~0)) by lia. reflexivity. }
  induction n as [n IH|n IH|]; intros q; cbn [SpecFloat.iter_pos].
  - replace (Zpos q * 2 ^ Zpos n~1) with (Zpos (Pos.iter xO q n~0) * 2).
    2:{ rewrite Zpos_iter_xO.
        replace (Zpos n~1) with (Zpos n~0 + 1) by lia.
        rewrite Z.pow_add_r, Z.pow_1_r by lia. ring. }
    rewrite Hone. rewrite Zpos_iter_xO.
    replace (Zpos q * 2 ^ Zpos n~0) with (Zpos (Pos.iter xO q n) * 2 ^ Zpos n).
    2:{ rewrite Zpos_iter_xO.
        replace (Zpos n~0) with (Zpos n + Zpos n) by lia.
        rewrite Z.pow_add_r by lia. ring. }
    rewrite IH, Zpos_iter_xO. apply IH.
  - replace (Zpos q * 2 ^ Zpos n~0) with (Zpos (Pos.iter xO q n) * 2 ^ Zpos n).
    2:{ rewrite Zpos_iter_xO.
        replace (Zpos n~0) with (Zpos n + Zpos n) by lia.
        rewrite Z.pow_add_r by lia. ring. }
    rewrite IH, Zpos_iter_xO. apply IH.
  - apply Hone.
Qed.

Lemma binary_round_aux_exact (m q : positive) (e n : Z) :
  0 <= n -> Zpos m = Zpos q * 2 ^ n -> Zpos (digits2_pos q) = 53 ->
  -1074 <= e + n <= 971 ->
  binary_round_aux 53 1024 false (Zpos m) e loc_Exact
  = S754_finite false q (e + n).
Proof.
  intros Hn Hm Hq He.
  assert (Zpos (digits2_pos m) = 53 + n) as Hdm.
  { apply digits2_pos_unique. pose proof (digits2_pos_bounds q) as Hb.
    rewrite Hq in Hb. rewrite Hm.
    replace (53 + n - 1) with (52 + n) by lia.
    rewrite !Z.pow_add_r by lia. change (53 - 1) with 52 in Hb.
    assert (0 < 2 ^ n) by (apply Z.pow_pos_nonneg; lia). nia. }
  unfold binary_round_aux, shr_fexp, fexp, emin.
  cbn [Zdigits2 shr_record_of_loc]. rewrite Hdm.
  replace (Z.max (53 + n + e - 53) (3 - 1024 - 53) - e) with n by lia.
  assert (shr {| shr_m := Zpos m; shr_r := false; shr_s := false |} e n
          = ({| shr_m := Zpos q; shr_r := false; shr_s := false |}, e + n)) as ->.
  { unfold shr. destruct n as [|n|n]; [|by rewrite Hm, iter_shr_1_exact | lia].
    rewrite Z.pow_0_r, Z.mul_1_r in Hm. rewrite Hm. f_equal. lia. }
  cbn [shr_m loc_of_shr_record shr_r shr_s round_nearest_even Zdigits2
       shr_record_of_loc]. rewrite Hq.
  replace (Z.max (53 + (e + n) - 53) (3 - 1024 - 53) - (e + n)) with 0 by lia.
  cbn [shr shr_m].
  destruct (Z.leb_spec (e + n) (1024 - 53)); [done | lia].
Qed.

Lemma canonical_mantissa_digits (p : positive) :
  Zpos p < 2 ^ 53 ->
  Zpos (Z.to_pos (Zpos p * 2 ^ (53 - Zpos (digits2_pos p))))
  = Zpos p * 2 ^ (53 - Zpos (digits2_pos p))
  /\ Zpos (digits2_pos (Z.to_pos (Zpos p * 2 ^ (53 - Zpos (digits2_pos p))))) = 53
  /\ 1 <= Zpos (digits2_pos p) <= 53.
Proof.
  intros Hp. pose proof (digits2_pos_bounds p) as [Hlo Hhi].
  set (d := Zpos (digits2_pos p)) in *.
  assert (1 <= d) by lia.
  assert (d <= 53).
  { destruct (Z.le_gt_cases d 53) as [|Hd]; [done|].
    assert (2 ^ 53 <= 2 ^ (d - 1)) by (apply Z.pow_le_mono_r; lia). lia. }
  assert (0 < 2 ^ (53 - d)) by (apply Z.pow_pos_nonneg; lia).
  assert (Zpos (Z.to_pos (Zpos p * 2 ^ (53 - d))) = Zpos p * 2 ^ (53 - d)) as Hz
    by (rewrite Z2Pos.id; nia).
  split; [done|]. split; [|lia].
  apply digits2_pos_unique. rewrite Hz.
  replace (2 ^ (53 - 1)) with (2 ^ (d - 1) * 2 ^ (53 - d))
    by (rewrite <- Z.pow_add_r by lia; f_equal; lia).
  replace (2 ^ 53) with (2 ^ d * 2 ^ (53 - d))
    by (rewrite <- Z.pow_add_r by lia; f_equal; lia).
  nia.
Qed.

Lemma of_Z_pos (p : positive) :
  Zpos p < 2 ^ 53 -> JS.of_Z (Zpos p) = canonical p.
Proof.
  intros Hp. destruct (canonical_mantissa_digits p Hp) as (Hz & Hd & Hlo & Hhi).
  unfold JS.of_Z, binary_normalize, binary_round, canonical.
  unfold shl_align, fexp, emin, JS.prec, JS.emax.
  replace (Z.max (Zpos (digits2_pos p) + 0 - 53) (3 - 1024 - 53))
    with (Zpos (digits2_pos p) - 53) by lia.
  destruct (Zpos (digits2_pos p) - 53 - 0) as [|k|k] eqn:Hk; [| lia |].
  - assert (Zpos (digits2_pos p) = 53) as H53 by lia.
    rewrite H53 in *. cbn [Z.sub Z.opp Z.add Z.pos_sub] in Hz |- *.
    change (53 - 53) with 0 in *. rewrite Z.pow_0_r, Z.mul_1_r, Pos2Z.id in *.
    rewrite (binary_round_aux_exact p p 0 0); [done | lia | lia | done | lia].
  - assert (53 - Zpos (digits2_pos p) = Zpos k) as Hk' by lia.
    rewrite Hk' in *.
    assert (Pos.iter xO p k = Z.to_pos (Zpos p * 2 ^ Zpos k)) as ->.
    { apply Pos2Z.inj. by rewrite Zpos_iter_xO, Hz. }
    rewrite (binary_round_aux_exact _ (Z.to_pos (Zpos p * 2 ^ Zpos k))
               (Zpos (digits2_pos p) - 53) 0); [|lia|lia|done|lia].
    f_equal. lia.
Qed.

Lemma mul_canonical (p q : positive) :
  Zpos (p * q) < 2 ^ 53 ->
  JS.mul (canonical p) (canonical q) = canonical (p * q).
Proof.
  intros Hpq.
  assert (Zpos p < 2 ^ 53) as Hp by nia.
  assert (Zpos q < 2 ^ 53) as Hq by nia.
  destruct (canonical_mantissa_digits p Hp) as (Hzp & _ & Hp1 & Hp53).
  destruct (canonical_mantissa_digits q Hq) as (Hzq & _ & Hq1 & Hq53).
  destruct (canonical_mantissa_digits (p * q) Hpq) as (Hz & Hd & H1 & H53).
  pose proof (digits2_pos_bounds p) as [Hplo Hphi].
  pose proof (digits2_pos_bounds q) as [Hqlo Hqhi].
  pose proof (digits2_pos_bounds (p * q)) as [Hlo Hhi].
  set (dp := Zpos (digits2_pos p)) in *.
  set (dq := Zpos (digits2_pos q)) in *.
  set (d := Zpos (digits2_pos (p * q))) in *.
  assert (dp + dq - 1 <= d).
  { assert (2 ^ (dp - 1) * 2 ^ (dq - 1) <= Zpos p * Zpos q) by nia.
    rewrite <- Z.pow_add_r in * by lia.
    assert (dp - 1 + (dq - 1) < d); [|lia].
    apply (Z.pow_lt_mono_r_iff 2); [lia | lia |]. rewrite Pos2Z.inj_mul in Hhi. lia. }
  assert (d <= dp + dq).
  { assert (Zpos p * Zpos q < 2 ^ dp * 2 ^ dq) by nia.
    rewrite <- Z.pow_add_r in * by lia.
    assert (d - 1 < dp + dq); [|lia].
    apply (Z.pow_lt_mono_r_iff 2); [lia | lia |]. rewrite Pos2Z.inj_mul in Hlo. lia. }
  unfold JS.mul, canonical, SFmul, JS.prec, JS.emax. cbn [xorb]. fold dp dq d.
  rewrite (binary_round_aux_exact _ (Z.to_pos (Zpos (p * q) * 2 ^ (53 - d)))
             (dp - 53 + (dq - 53)) (53 + d - dp - dq)); [f_equal; lia | lia | | done | lia].
  rewrite Pos2Z.inj_mul, Hzp, Hzq, Hz, Pos2Z.inj_mul.
  replace (53 - dp) with ((53 - d) + (d - dp)) at 1 by lia.
  replace (53 + d - dp - dq) with ((d - dp) + (53 - dq)) by lia.
  destruct (Z.le_gt_cases dp d).
  - rewrite !Z.pow_add_r by lia.
    generalize (2 ^ (53 - d)) (2 ^ (d - dp)) (2 ^ (53 - dq)). intros; ring.
  - lia.
Qed.

Lemma floor_canonical (p : positive) :
  Zpos p < 2 ^ 53 -> JS.Math_floor (canonical p) = canonical p.
Proof.
  intros Hp. destruct (canonical_mantissa_digits p Hp) as (Hz & Hd & Hlo & Hhi).
  unfold JS.Math_floor. unfold canonical at 1.
  destruct (Z.leb_spec 0 (Zpos (digits2_pos p) - 53)); [done|].
  cbn [cond_Zopp]. rewrite Hz.
  replace (- (Zpos (digits2_pos p) - 53)) with (53 - Zpos (digits2_pos p)) by lia.
  rewrite Z.div_mul by (apply Z.pow_nonzero; lia).
  by apply of_Z_pos.
Qed.

Lemma to_Z_canonical (p : positive) :
  Zpos p < 2 ^ 53 -> JS.to_Z (canonical p) = Some (Zpos p).
Proof.
  intros Hp. destruct (canonical_mantissa_digits p Hp) as (Hz & Hd & Hlo & Hhi).
  unfold JS.to_Z, canonical. cbn [cond_Zopp]. rewrite Hz.
  destruct (Z.leb_spec 0 (Zpos (digits2_pos p) - 53)).
  - replace (Zpos (digits2_pos p) - 53) with 0 by lia.
    replace (53 - Zpos (digits2_pos p)) with 0 by lia.
    by rewrite !Z.pow_0_r, !Z.mul_1_r.
  - replace (- (Zpos (digits2_pos p) - 53)) with (53 - Zpos (digits2_pos p)) by lia.
    rewrite Z.mod_mul by (apply Z.pow_nonzero; lia). cbn.
    by rewrite Z.div_mul by (apply Z.pow_nonzero; lia).
Qed.

(** Integers up to [2^53] in absolute value are Numbers, and [Math.floor]
    and products that stay in this range are exact on them. *)
Lemma to_Z_of_Z (n : Z) : 0 <= n < 2 ^ 53 -> JS.to_Z (JS.of_Z n) = Some n.
Proof.
  intros [Hlo Hhi]. destruct n as [|p|p]; [done | | lia].
  rewrite of_Z_pos by done. by apply to_Z_canonical.
Qed.

Lemma floor_mul_of_Z (n k : Z) :
  0 <= n -> 0 < k < 2 ^ 53 -> n * k < 2 ^ 53 ->
  JS.to_Z (JS.Math_floor (JS.mul (JS.of_Z n) (JS.of_Z k))) = Some (n * k).
Proof.
  intros Hn [Hk Hk'] Hnk. destruct k as [|q|q]; [lia | | lia].
  destruct n as [|p|p]; [| | lia].
  - rewrite of_Z_pos by done. reflexivity.
  - assert (Zpos (p * q) < 2 ^ 53) by (rewrite Pos2Z.inj_mul; lia).
    rewrite !of_Z_pos by nia.
    rewrite mul_canonical, floor_canonical, to_Z_canonical by done.
    by rewrite Pos2Z.inj_mul.
Qed.

End NumberFacts.

(** ** The view-count parser *)

Section FormatViewsFacts.
Import TikTokScrapingTool Vocabulary.

(** [formatViews] is total, and the empty string gives 0. *)
Lemma formatViews_empty : formatViews "" = JS.of_Z 0.
Proof. reflexivity. Qed.

(** Without a unit suffix, input that does not start with a numeral gives 0,
    through the [|| 0] of the last line. *)
Lemma formatViews_not_numeric (views : string) :
  views <> "" ->
  unitMultiplier (JS.toLowerCase (JS.slice_last views)) = None ->
  JS.parseFloat views = JS.NaN ->
  formatViews views = JS.of_Z 0.
Proof.
  intros Hne Hunit Hnan. unfold formatViews.
  rewrite bool_decide_eq_false_2 by done. by rewrite Hunit, Hnan.
Qed.

(** With a unit suffix there is no such fallback: when what precedes the
    suffix does not start with a numeral, the result is NaN. *)
Lemma formatViews_suffix_not_numeric (views : string) (multiplier : JS.number) :
  views <> "" ->
  unitMultiplier (JS.toLowerCase (JS.slice_last views)) = Some multiplier ->
  JS.parseFloat (JS.slice_init views) = JS.NaN ->
  formatViews views = JS.NaN.
Proof.
  intros Hne Hunit Hnan. unfold formatViews.
  rewrite bool_decide_eq_false_2 by done. by rewrite Hunit, Hnan.
Qed.

Example formatViews_plain : JS.to_Z (formatViews "980") = Some 980.
Proof. reflexivity. Qed.

Example formatViews_plain_fraction : JS.to_Z (formatViews "12.7") = Some 12.
Proof. reflexivity. Qed.

Example formatViews_kilo : JS.to_Z (formatViews "1.5k") = Some 1500.
Proof. reflexivity. Qed.

Example formatViews_mega_upper : JS.to_Z (formatViews "1.5M") = Some 1500000.
Proof. reflexivity. Qed.

Example formatViews_giga : JS.to_Z (formatViews "2B") = Some 2000000000.
Proof. reflexivity. Qed.

Example formatViews_words : formatViews "views" = JS.of_Z 0.
Proof. reflexivity. Qed.

Example formatViews_only_suffix : formatViews "k" = JS.NaN.
Proof. reflexivity. Qed.

Example formatViews_word_with_suffix : formatViews "bob" = JS.NaN.
Proof. reflexivity. Qed.

Lemma digit_cases (c : ascii) :
  JS.is_digit c = true ->
  In c ["0"; "1"; "2"; "3"; "4"; "5"; "6"; "7"; "8"; "9"]%char.
Proof.
  destruct c as [[] [] [] [] [] [] [] []]; vm_compute; intros H;
    first [discriminate H | tauto].
Qed.

Lemma read_digits_all (s : string) (acc : N) (len : nat) :
  all_digits s = true ->
  JS.read_digits s acc len = (decimal_value s acc, (len + String.length s)%nat, "").
Proof.
  revert acc len. induction s as [|c r IH]; intros acc len Hs; cbn in *.
  - by rewrite Nat.add_0_r.
  - apply andb_true_iff in Hs as [Hc Hr]. rewrite Hc, IH by done.
    by rewrite Nat.add_succ_r.
Qed.

Lemma parseFloat_digits (s : string) :
  all_digits s = true -> s <> "" ->
  JS.parseFloat s = JS.of_decimal false (decimal_value s 0) 0.
Proof.
  intros Hs Hne. destruct s as [|c r]; [done|]. cbn in Hs.
  apply andb_true_iff in Hs as [Hc Hr].
  assert (JS.parseFloat (String c r) = JS.read_unsigned false (String c r)) as ->.
  { apply digit_cases in Hc. cbn in Hc.
    repeat destruct Hc as [<- | Hc]; try reflexivity. done. }
  assert (String.prefix "Infinity" (String c r) = false) as Hinf.
  { apply digit_cases in Hc. cbn in Hc.
    repeat destruct Hc as [<- | Hc]; try reflexivity. done. }
  unfold JS.read_unsigned. rewrite Hinf.
  rewrite read_digits_all by (cbn; by rewrite Hc, Hr).
  cbn [String.length Nat.add]. reflexivity.
Qed.

Lemma slice_last_snoc (s : string) (c : ascii) :
  JS.slice_last (s ++ String c "") = String c "".
Proof.
  induction s as [|d r IH]; [done|]. destruct r as [|e r']; [done|].
  exact IH.
Qed.

Lemma slice_init_snoc (s : string) (c : ascii) :
  JS.slice_init (s ++ String c "") = s.
Proof.
  induction s as [|d r IH]; [done|]. destruct r as [|e r']; [done|].
  change (String d (JS.slice_init (String e r' ++ String c "")) = String d (String e r')).
  by rewrite IH.
Qed.

Lemma digits_have_no_unit (s : string) :
  all_digits s = true -> s <> "" ->
  unitMultiplier (JS.toLowerCase (JS.slice_last s)) = None.
Proof.
  induction s as [|c r IH]; intros Hs Hne; [done|]. cbn in Hs.
  apply andb_true_iff in Hs as [Hc Hr]. destruct r as [|c' r'].
  - apply digit_cases in Hc. cbn in Hc.
    repeat destruct Hc as [<- | Hc]; try reflexivity. done.
  - apply IH; done.
Qed.

Lemma suffix_has_unit (c : ascii) (k : Z) :
  suffix_multiplier c = Some k ->
  unitMultiplier (JS.toLowerCase (String c "")) = Some (JS.of_Z k)
  /\ 0 < k < 2 ^ 53.
Proof.
  unfold suffix_multiplier.
  destruct (Ascii.eqb_spec c "k") as [->|]; [intros [= <-]; split; [reflexivity|lia]|].
  destruct (Ascii.eqb_spec c "K") as [->|]; [intros [= <-]; split; [reflexivity|lia]|].
  destruct (Ascii.eqb_spec c "m") as [->|]; [intros [= <-]; split; [reflexivity|lia]|].
  destruct (Ascii.eqb_spec c "M") as [->|]; [intros [= <-]; split; [reflexivity|lia]|].
  destruct (Ascii.eqb_spec c "b") as [->|]; [intros [= <-]; split; [reflexivity|lia]|].
  destruct (Ascii.eqb_spec c "B") as [->|]; [intros [= <-]; split; [reflexivity|lia]|].
  done.
Qed.

Lemma of_decimal_integer (n : N) : JS.of_decimal false n 0 = JS.of_Z (Z.of_N n).
Proof.
  destruct n as [|p]; [done|]. unfold JS.of_decimal, JS.of_Z. cbn.
  by rewrite Pos.mul_1_r.
Qed.

(** X29. A plain string of digits that denotes an integer below [2^53] is
    read exactly. *)
Lemma formatViews_integer (s : string) :
  all_digits s = true -> s <> "" ->
  Z.of_N (decimal_value s 0) < 2 ^ 53 ->
  JS.to_Z (formatViews s) = Some (Z.of_N (decimal_value s 0)).
Proof.
  intros Hs Hne Hlt. unfold formatViews.
  rewrite bool_decide_eq_false_2 by done.
  rewrite digits_have_no_unit, parseFloat_digits, of_decimal_integer by done.
  destruct (decimal_value s 0) as [|p]; [reflexivity|].
  cbn [Z.of_N] in *. rewrite of_Z_pos, floor_canonical by done.
  cbn [JS.or_else JS.truthy canonical]. by apply to_Z_canonical.
Qed.

(** X30. So is a string of digits followed by a unit, when the product with
    the multiplier is below [2^53]. *)
Lemma formatViews_integer_suffix (s : string) (c : ascii) (k : Z) :
  all_digits s = true -> s <> "" ->
  suffix_multiplier c = Some k ->
  Z.of_N (decimal_value s 0) * k < 2 ^ 53 ->
  JS.to_Z (formatViews (s ++ String c "")) = Some (Z.of_N (decimal_value s 0) * k).
Proof.
  intros Hs Hne Hc Hlt. apply suffix_has_unit in Hc as [Hunit Hk].
  unfold formatViews. rewrite bool_decide_eq_false_2 by (by destruct s).
  rewrite slice_last_snoc, Hunit, slice_init_snoc.
  rewrite parseFloat_digits, of_decimal_integer by done.
  apply floor_mul_of_Z; [lia | done | done].
Qed.

(** C10, at [32.3k]: the nearest double of 32.3 lies below 32.3, its product
    with 1000 rounds to a double below 32300, and the floor of that is
    32299, while the floor of 32.3 times 1000 is 32300. The same happens at
    [1.005k]. *)
Theorem formatViews_floors_an_inexact_product :
  JS.to_Z (formatViews "32.3k") = Some 32299
  /\ exact_floor 323 1 1000 = 32300
  /\ JS.to_Z (formatViews "1.005k") = Some 1004
  /\ exact_floor 1005 3 1000 = 1005.
Proof. repeat split; reflexivity. Qed.

End FormatViewsFacts.

(** ** The url, text and view-count helpers of the TikTok tool *)

Section HelperCoverage.
Import TikTokScrapingTool Vocabulary Coverage.

Lemma strip_prefix_Some (p s r : string) :
  strip_prefix p s = Some r <-> s = String.append p r.
Proof.
  revert s. induction p as [|a p IH]; intros s; cbn.
  - split; [by intros [= ->] | by intros ->].
  - destruct s as [|b s]; [split; [done | intros [=]]|].
    destruct (Ascii.eqb_spec a b) as [->|Hab].
    + rewrite IH. split; [by intros -> | by intros [= ->]].
    + split; [done | intros [= ? ?]; done].
Qed.

Lemma take_digits_split (s : string) :
  exists post,
    s = String.append (take_digits s) post
    /\ all_digits (take_digits s) = true
    /\ starts_with_digit post = false.
Proof.
  induction s as [|c s (post & Hs & Hd & Hp)]; [by exists ""|].
  cbn [take_digits]. destruct (JS.is_digit c) eqn:Hc.
  - exists post.
    split; [change (String c s = String c (take_digits s +:+ post)); congruence|].
    split; [cbn [all_digits]; by rewrite Hc, Hd | done].
  - exists (String c s). split; [done|]. split; [done|]. cbn. by rewrite Hc.
Qed.

Lemma take_digits_nonempty (c : ascii) (s : string) :
  JS.is_digit c = true -> take_digits (String c s) <> "".
Proof. intros Hc. cbn. by rewrite Hc. Qed.

Lemma match_video_unfold (s : string) :
  match_video s
  = let here := match strip_prefix "/video/" s with
                | Some r => take_digits r
                | None => EmptyString
                end in
    match here, s with
    | String _ _, _ => Some here
    | EmptyString, String _ r => match_video r
    | EmptyString, EmptyString => None
    end.
Proof. destruct s; reflexivity. Qed.

Lemma getTiktokId_Some (url tiktokId : string) :
  getTiktokId url = Some tiktokId ->
  tiktokId <> ""
  /\ all_digits tiktokId = true
  /\ exists before after,
       url = String.append before
               (String.append "/video/" (String.append tiktokId after))
       /\ starts_with_digit after = false.
Proof.
  unfold getTiktokId. case_bool_decide; [done|]. clear.
  induction url as [|c url IH]; rewrite match_video_unfold; cbv zeta.
  - cbn. done.
  - destruct (strip_prefix "/video/" (String c url)) as [r|] eqn:Hr.
    + destruct (take_digits r) as [|a b] eqn:Hd.
      * intros H. destruct (IH H) as (Hne & Hall & before & after & -> & Hafter).
        split; [done|]. split; [done|]. by exists (String c before), after.
      * intros [= <-]. apply strip_prefix_Some in Hr.
        destruct (take_digits_split r) as (post & Hs & Hall & Hpost).
        rewrite Hd in *. split; [done|]. split; [done|].
        exists "", post. by rewrite Hr, Hs at 1.
    + intros H. destruct (IH H) as (Hne & Hall & before & after & -> & Hafter).
      split; [done|]. split; [done|]. by exists (String c before), after.
Qed.

(** X1. What [getTiktokId] returns is never empty and consists of decimal
    digits: it is the whole run of digits that follows an occurrence of
    [/video/] in the url. *)
Theorem getTiktokId_returns_the_digits_after_video (url tiktokId : string) :
  getTiktokId url = Some tiktokId ->
  tiktokId <> ""
  /\ all_digits tiktokId = true
  /\ exists before after,
       url = String.append before
               (String.append "/video/" (String.append tiktokId after))
       /\ starts_with_digit after = false.
Proof. apply getTiktokId_Some. Qed.

Lemma getTiktokId_returns_the_digits_after_video_witness :
  "7301" <> ""
  /\ all_digits "7301" = true
  /\ exists before after,
       "https://www.tiktok.com/@alice/video/7301?lang=en"
       = String.append before
           (String.append "/video/" (String.append "7301" after))
       /\ starts_with_digit after = false.
Proof.
  apply (getTiktokId_returns_the_digits_after_video
           "https://www.tiktok.com/@alice/video/7301?lang=en" "7301").
  reflexivity.
Defined.

(** X2. [getTiktokId] returns [null] exactly when the url has no [/video/]
    that is followed by a digit; this covers the empty url. *)
Theorem getTiktokId_none_iff (url : string) :
  getTiktokId url = None
  <-> forall before d after,
        JS.is_digit d = true ->
        url <> String.append before (String.append "/video/" (String d after)).
Proof.
  split.
  - unfold getTiktokId. case_bool_decide as Hurl.
    + subst url. intros _ before d after _. by destruct before.
    + clear Hurl. induction url as [|c url IH]; rewrite match_video_unfold; cbv zeta.
      * intros _ before d after _. by destruct before.
      * intros H before d after Hd Heq.
        destruct before as [|c' before].
        -- cbn [String.append] in Heq.
           assert (strip_prefix "/video/" (String c url) = Some (String d after)) as Hs
             by (by apply strip_prefix_Some).
           rewrite Hs in H. pose proof (take_digits_nonempty d after Hd) as Hne.
           destruct (take_digits (String d after)); done.
        -- cbn [String.append] in Heq. injection Heq as -> ->.
           assert (match_video
                     (String.append before (String.append "/video/" (String d after)))
                   = None) as Hrec.
           { destruct (match strip_prefix "/video/" _ with
                       | Some r => take_digits r | None => "" end); done. }
           by eapply (IH Hrec).
  - intros Hno. destruct (getTiktokId url) as [tid|] eqn:E; [|done].
    apply getTiktokId_Some in E as (Hne & Hall & before & after & -> & _).
    destruct tid as [|d tid]; [done|]. cbn in Hall.
    apply andb_true_iff in Hall as [Hd _].
    by destruct (Hno before d (String.append tid after) Hd).
Qed.

Lemma sanitize_no_nul (s : string) : has_nul (sanitize s) = false.
Proof.
  induction s as [|c s IH]; [done|]. cbn.
  destruct (JS.code c =? 0)%N eqn:Hc; [done|]. cbn. by rewrite Hc.
Qed.

Lemma sanitize_fixed (s : string) : has_nul s = false -> sanitize s = s.
Proof.
  induction s as [|c s IH]; [done|]. cbn.
  destruct (JS.code c =? 0)%N; cbn; [intros [=]|]. intros H. by rewrite IH.
Qed.

Lemma sanitize_app (a b : string) :
  sanitize (String.append a b) = String.append (sanitize a) (sanitize b).
Proof.
  induction a as [|c a IH]; [done|].
  change (String c a +:+ b) with (String c (a +:+ b)). cbn [sanitize].
  destruct (JS.code c =? 0)%N; [done|].
  change (String c (sanitize a) +:+ sanitize b)
    with (String c (sanitize a +:+ sanitize b)). by rewrite IH.
Qed.

Lemma sanitize_filter (s : string) :
  list_ascii_of_string (sanitize s)
  = filter (fun c => JS.code c <> 0%N) (list_ascii_of_string s).
Proof.
  induction s as [|c s IH]; [done|]. cbn [sanitize list_ascii_of_string].
  rewrite filter_cons. destruct (N.eqb_spec (JS.code c) 0) as [Hc|Hc].
  - by rewrite decide_False by (intros H; done).
  - rewrite decide_True by done. cbn. by rewrite IH.
Qed.

(** X3. [sanitize] removes the NUL code units and nothing else: the code
    units of its result are those of its argument that are not NUL, in the
    same order and as often. So its result holds no NUL, a second pass
    changes nothing, a string without NUL is returned as it is (and only
    such a string), the function distributes over concatenation, and it
    never lengthens its input. *)
Theorem sanitize_removes_exactly_the_nuls (s t : string) :
  list_ascii_of_string (sanitize s)
  = filter (fun c => JS.code c <> 0%N) (list_ascii_of_string s)
  /\ has_nul (sanitize s) = false
  /\ sanitize (sanitize s) = sanitize s
  /\ (sanitize s = s <-> has_nul s = false)
  /\ sanitize (String.append s t) = String.append (sanitize s) (sanitize t)
  /\ (String.length (sanitize s) <= String.length s)%nat.
Proof.
  split; [apply sanitize_filter|].
  split; [apply sanitize_no_nul|].
  split; [apply sanitize_fixed, sanitize_no_nul|].
  split; [split; [intros <-; apply sanitize_no_nul | apply sanitize_fixed]|].
  split; [apply sanitize_app|].
  induction s as [|c s IH]; [done|]. cbn.
  destruct (JS.code c =? 0)%N; cbn; lia.
Qed.

(** X4. The unit suffix of [formatViews] is read without regard to case:
    an upper-case K, M or B gives the same Number as the lower-case
    letter, whatever precedes it. *)
Theorem formatViews_unit_case (s : string) :
  formatViews (String.append s "K") = formatViews (String.append s "k")
  /\ formatViews (String.append s "M") = formatViews (String.append s "m")
  /\ formatViews (String.append s "B") = formatViews (String.append s "b").
Proof.
  unfold formatViews.
  rewrite !bool_decide_eq_false_2 by (by destruct s).
  rewrite !slice_last_snoc, !slice_init_snoc. done.
Qed.

Lemma formatViews_integer_witness :
  JS.to_Z (formatViews "980") = Some 980.
Proof.
  apply (formatViews_integer "980"); [reflexivity | discriminate | reflexivity].
Defined.

Lemma formatViews_integer_suffix_witness :
  JS.to_Z (formatViews "15K") = Some 15000.
Proof.
  apply (formatViews_integer_suffix "15" "K" 1000);
    [reflexivity | discriminate | reflexivity | reflexivity].
Defined.

End HelperCoverage.

(** ** The scroll loops, the store writes and the entry point of the TikTok tool *)

Section ScrapeCoverage.
Import TikTokScrapingTool Vocabulary Coverage.

Lemma grown_refl maxResults results seen :
  grown maxResults results seen results seen.
Proof.
  exists []. rewrite app_nil_r. split; [done|].
  split; [cbn; by rewrite union_empty_l_L|].
  split; [|done]. intros v Hv. by apply not_elem_of_nil in Hv.
Qed.

Lemma grown_trans maxResults r0 s0 r1 s1 r2 s2 :
  grown maxResults r0 s0 r1 s1 -> grown maxResults r1 s1 r2 s2 ->
  grown maxResults r0 s0 r2 s2.
Proof.
  intros (n1 & -> & -> & Hu1 & Hl1) (n2 & -> & -> & Hu2 & Hl2).
  exists (n1 ++ n2). rewrite app_assoc. split; [done|]. split.
  - unfold urls. rewrite fmap_app, list_to_set_app_L, (assoc_L (∪)).
    by rewrite (comm_L (∪) (list_to_set (video_url <$> n2))).
  - split; [|auto]. intros v [Hv|Hv]%elem_of_app; auto.
Qed.

Lemma scan_elements_grown maxResults els results seen :
  grown maxResults results seen
    (scan_elements maxResults els results seen).1.2
    (scan_elements maxResults els results seen).2.
Proof.
  revert results seen. induction els as [|el els IH]; intros results seen.
  - apply grown_refl.
  - cbn [scan_elements]. destruct (maxResults <=? length results)%nat eqn:Hfull;
      [apply grown_refl|].
    destruct el as [msg| |v c]; [apply grown_refl | apply IH |].
    destruct (bool_decide (video_url v <> "") && _) eqn:Hfresh; [|apply IH].
    destruct c as [cs|msg]; [|apply grown_refl].
    apply andb_true_iff in Hfresh as [Hurl%bool_decide_eq_true _].
    eapply grown_trans; [|apply IH].
    exists [with_comments v cs]. split; [done|].
    split; [cbn; by rewrite union_empty_r_L|].
    split.
    + intros w ->%list_elem_of_singleton. done.
    + apply Nat.leb_gt in Hfull. rewrite length_app. cbn. lia.
Qed.

Lemma scroll_loop_grown maxResults feed results seen :
  grown maxResults results seen
    (scroll_loop maxResults feed results seen).1.2
    (scroll_loop maxResults feed results seen).2.
Proof.
  revert results seen. induction feed as [|snap feed IH]; intros results seen.
  - cbn. destruct (_ <=? _)%nat; apply grown_refl.
  - cbn [scroll_loop]. destruct (_ <=? _)%nat; [apply grown_refl|].
    destruct snap as [msg|els]; [apply grown_refl|].
    destruct els as [|el els]; [apply IH|].
    pose proof (scan_elements_grown maxResults (el :: els) results seen) as Hscan.
    destruct (scan_elements maxResults (el :: els) results seen) as [[c results'] seen'].
    cbn in Hscan. destruct c; [|done].
    destruct (_ <=? _)%nat; [done|]. eapply grown_trans; [done | apply IH].
Qed.

Lemma scroll_loop_contract maxResults feed seen :
  let '(status, videos, seen') := scroll_loop maxResults feed [] seen in
  (length videos <= maxResults)%nat
  /\ NoDup (urls videos)
  /\ (forall v, v ∈ videos -> video_url v <> "" /\ video_url v ∉ seen)
  /\ seen' = list_to_set (urls videos) ∪ seen.
Proof.
  pose proof (scroll_loop_grown maxResults feed [] seen) as (new & Hres & Hseen & Hurl & Hlen).
  pose proof (scroll_loop_skips_seen maxResults feed seen) as Hskip.
  pose proof (scroll_loop_inv maxResults feed [] [] seen) as Hinv.
  destruct (scroll_loop maxResults feed [] seen) as [[status videos] seen'].
  cbn in *. subst new. split; [apply Hlen; lia|]. split.
  - apply Hinv. split; [constructor|]. intros u Hu. by apply not_elem_of_nil in Hu.
  - split; [|done]. intros v Hv. split; auto.
Qed.

(** X5. The contract of [processSearchTerm] and [processHashtagTerm],
    whatever the pages show and however the call ends: at most
    [maxResults] videos are handed on, their urls are pairwise distinct,
    none is empty and none was in [processedUrls] at the call; and
    [processedUrls] grows by exactly the urls of these videos. *)
Theorem process_term_contract page keyword maxResults seen :
  (let '(status, videos, seen') := processSearchTerm page keyword maxResults seen in
   (length videos <= maxResults)%nat
   /\ NoDup (urls videos)
   /\ (forall v, v ∈ videos -> video_url v <> "" /\ video_url v ∉ seen)
   /\ seen' = list_to_set (urls videos) ∪ seen)
  /\ (let '(status, videos, seen') := processHashtagTerm page keyword maxResults seen in
      (length videos <= maxResults)%nat
      /\ NoDup (urls videos)
      /\ (forall v, v ∈ videos -> video_url v <> "" /\ video_url v ∉ seen)
      /\ seen' = list_to_set (urls videos) ∪ seen).
Proof. split; apply scroll_loop_contract. Qed.


Lemma scan_elements_stale maxResults els seen :
  Forall (stale_element seen) els ->
  scan_elements maxResults els [] seen = (Normal tt, [], seen).
Proof.
  induction els as [|el els IH]; intros Hst; [done|].
  apply Forall_cons in Hst as [Hel Hst]. cbn [scan_elements].
  destruct (maxResults <=? length [])%nat; [done|].
  destruct el as [msg| |v c]; [done | by apply IH |].
  cbn in Hel.
  assert (bool_decide (video_url v <> "") && bool_decide (video_url v ∉ seen) = false) as ->.
  { destruct Hel as [Hu|Hu].
    - rewrite (bool_decide_eq_false_2 (video_url v <> "")) by (intros H; done). done.
    - rewrite (bool_decide_eq_false_2 (video_url v ∉ seen)) by (intros H; done).
      apply andb_false_r. }
  by apply IH.
Qed.

Lemma scroll_loop_waits_on_stale_pages maxResults feed seen :
  (0 < maxResults)%nat ->
  Forall (stale_snapshot seen) feed ->
  scroll_loop maxResults feed [] seen = (Pending, [], seen).
Proof.
  intros Hmax. induction feed as [|snap feed IH]; intros Hst.
  - cbn. destruct (Nat.leb_spec maxResults 0); [lia | done].
  - apply Forall_cons in Hst as [Hsnap Hst]. cbn [scroll_loop].
    destruct (Nat.leb_spec maxResults (length (@nil video))); [cbn in *; lia|].
    destruct snap as [msg|els]; [done|]. destruct els as [|el els]; [by apply IH|].
    rewrite scan_elements_stale by done.
    destruct (Nat.leb_spec maxResults (length (@nil video))); [cbn in *; lia|].
    by apply IH.
Qed.

(** X6. The scroll loops have no bound on their attempts: as long as every
    look at the page shows only elements without data, without a url or
    with a url that has been seen, a call with a positive limit has not
    returned, has no result and has left [processedUrls] as it was. *)
Theorem process_term_waits_on_stale_pages page keyword maxResults seen :
  (0 < maxResults)%nat ->
  Forall (stale_snapshot seen) (search_page page keyword) ->
  Forall (stale_snapshot seen) (tag_page page keyword) ->
  processSearchTerm page keyword maxResults seen = (Pending, [], seen)
  /\ processHashtagTerm page keyword maxResults seen = (Pending, [], seen).
Proof.
  intros Hmax Hsearch Htag.
  split; by apply scroll_loop_waits_on_stale_pages.
Qed.

Lemma process_term_waits_on_stale_pages_witness :
  let page := {| launch_error := None; search_page := fun _ => stale_feed;
                 tag_page := fun _ => stale_feed; close_error := None;
                 close_again_error := None |} in
  processSearchTerm page "memecoin" 100 ∅ = (Pending, [], ∅)
  /\ processHashtagTerm page "memecoin" 100 ∅ = (Pending, [], ∅).
Proof.
  apply (process_term_waits_on_stale_pages
           {| launch_error := None; search_page := fun _ => stale_feed;
              tag_page := fun _ => stale_feed; close_error := None;
              close_again_error := None |}
           "memecoin" 100 ∅);
    [ lia
    | repeat constructor; left; reflexivity
    | repeat constructor; left; reflexivity ].
Defined.

(** What one iteration of [storeVideos] does to the store. *)
Lemma storeVideo_shape svc now db v :
  if passed_over svc now v
  then storeVideo svc now db v = db
  else exists tiktokId record rows,
         getTiktokId (video_url v) = Some tiktokId
         /\ tiktokRecord now tiktokId v = Normal record
         /\ storeVideo svc now db v
            = {| tiktoks := upsert record (tiktoks db); tokens := tokens db;
                 mentions := mentions db ++ rows |}.
Proof.
  unfold passed_over, storeVideo.
  destruct (getTiktokId (video_url v)) as [tiktokId|]; [|done].
  destruct (tiktokRecord now tiktokId v) as [record|] eqn:Hrec; [|done].
  destruct (upsert_error svc record); [done|].
  exists tiktokId, record.
  assert (forall d : supabase,
    d = {| tiktoks := upsert record (tiktoks db); tokens := tokens db;
           mentions := mentions db ++ [] |} ->
    exists rows, Some tiktokId = Some tiktokId
      /\ tiktokRecord now tiktokId v = Normal record
      /\ d = {| tiktoks := upsert record (tiktoks db); tokens := tokens db;
                mentions := mentions db ++ rows |}) as Hnone
    by (intros d ->; by exists []).
  destruct (comments v) as [c|]; [|apply Hnone; by rewrite app_nil_r].
  destruct (tickers c) eqn:Htick; [|apply Hnone; by rewrite app_nil_r].
  match goal with
  | |- context [storeTokenMentions ?a ?b ?c ?d ?e] =>
      destruct (storeTokenMentions_rows a b c d e) as (rows & -> & _)
  end.
  by exists rows.
Qed.

Lemma storeVideo_frame svc now db v :
  tokens (storeVideo svc now db v) = tokens db
  /\ mentions db `prefix_of` mentions (storeVideo svc now db v)
  /\ (length (tiktoks db) <= length (tiktoks (storeVideo svc now db v))
      <= S (length (tiktoks db)))%nat.
Proof.
  pose proof (storeVideo_shape svc now db v) as H.
  destruct (passed_over svc now v).
  - rewrite H. split; [done|]. split; [done | lia].
  - destruct H as (tiktokId & record & rows & _ & _ & ->). cbn.
    split; [done|]. split; [by apply prefix_app_r|].
    rewrite length_upsert. destruct (existsb _ _); lia.
Qed.

Lemma storeVideos_frame svc now videos db :
  tokens (storeVideos svc now videos db) = tokens db
  /\ mentions db `prefix_of` mentions (storeVideos svc now videos db)
  /\ (length (tiktoks db) <= length (tiktoks (storeVideos svc now videos db))
      <= length (tiktoks db) + length videos)%nat.
Proof.
  unfold storeVideos. revert db.
  induction videos as [|v videos IH]; intros db; cbn.
  - split; [done|]. split; [done | lia].
  - destruct (IH (storeVideo svc now db v)) as (Ht & Hm & Hl).
    destruct (storeVideo_frame svc now db v) as (Ht' & Hm' & Hl').
    split; [congruence|]. split; [by etrans | lia].
Qed.

(** X7. [storeVideos] leaves the store untouched when it passes over every
    video, that is when for each of them the url has no video id, the
    record cannot be built or the service refuses the upsert; no error
    reaches the caller. *)
Theorem storeVideos_passes_over svc now videos db :
  Forall (fun v => passed_over svc now v = true) videos ->
  storeVideos svc now videos db = db.
Proof.
  unfold storeVideos. induction videos as [|v videos IH]; intros Hall; [done|].
  apply Forall_cons in Hall as [Hv Hall]. cbn.
  pose proof (storeVideo_shape svc now db v) as H. rewrite Hv in H.
  rewrite H. by apply IH.
Qed.

Lemma storeVideos_passes_over_witness :
  storeVideos svc_refusing 0 [Fixtures.clip_a; Fixtures.clip_b] Fixtures.db0
  = Fixtures.db0.
Proof.
  apply (storeVideos_passes_over svc_refusing 0
           [Fixtures.clip_a; Fixtures.clip_b] Fixtures.db0).
  repeat constructor.
Defined.

Lemma ids_storeVideos_mono svc now videos db (i : string) :
  i ∈ ids (tiktoks db) -> i ∈ ids (tiktoks (storeVideos svc now videos db)).
Proof.
  unfold storeVideos. revert db.
  induction videos as [|v videos IH]; intros db Hi; [done|].
  cbn. by apply IH, ids_storeVideo_mono.
Qed.

(** X8. After [storeVideos], every id in [tiktoks] was there before or is
    the video id of one of the videos; and each video that is not passed
    over is found in [tiktoks] under its video id. *)
Theorem storeVideos_ids svc now videos db :
  (forall i, i ∈ ids (tiktoks (storeVideos svc now videos db)) ->
     i ∈ ids (tiktoks db)
     \/ exists v, v ∈ videos /\ getTiktokId (video_url v) = Some i)
  /\ (forall v i, v ∈ videos -> passed_over svc now v = false ->
        getTiktokId (video_url v) = Some i ->
        i ∈ ids (tiktoks (storeVideos svc now videos db))).
Proof.
  split.
  - unfold storeVideos. revert db.
    induction videos as [|v videos IH]; intros db i Hi; [by left|].
    cbn in Hi. apply IH in Hi as [Hi | (w & Hw & Hid)].
    + pose proof (storeVideo_shape svc now db v) as H.
      destruct (passed_over svc now v).
      * rewrite H in Hi. by left.
      * destruct H as (tiktokId & record & rows & Hid & Hrec & Heq).
        rewrite Heq in Hi. cbn in Hi. rewrite ids_upsert in Hi.
        apply tiktokRecord_fields in Hrec as (Hrid & _).
        destruct (existsb _ _); [by left|].
        apply elem_of_app in Hi as [Hi | ->%list_elem_of_singleton]; [by left|].
        right. exists v. split; [left | congruence].
    + right. exists w. split; [by right | done].
  - unfold storeVideos. revert db.
    induction videos as [|w videos IH]; intros db v i Hv Hpass Hid;
      [by apply not_elem_of_nil in Hv|].
    cbn. apply elem_of_cons in Hv as [->|Hv]; [|by eapply IH].
    apply (ids_storeVideos_mono svc now videos).
    pose proof (storeVideo_shape svc now db w) as H. rewrite Hpass in H.
    destruct H as (tiktokId & record & rows & Hid' & Hrec & ->). cbn.
    apply tiktokRecord_fields in Hrec as (Hrid & _).
    assert (i = id record) as -> by congruence.
    apply list_elem_of_fmap_2, elem_of_upsert_new.
Qed.

(** X9. The rows [storeTokenMentions] builds, entry by entry: for each
    ticker entry in turn, one row for each known token with that symbol,
    carrying the count of the entry. Their number is the sum over the
    entries of the number of tokens with that symbol. *)
Theorem mentionsData_by_entry tiktokId mentionAt toks entries :
  mentionsData tiktokId mentionAt toks entries
  = flat_map (fun entry : string * Z =>
                mention tiktokId mentionAt entry.2 <$> ids_of entry.1 toks)
      entries
  /\ length (mentionsData tiktokId mentionAt toks entries)
     = sum_list ((fun entry : string * Z => length (ids_of entry.1 toks)) <$> entries).
Proof.
  assert (mentionsData tiktokId mentionAt toks entries
          = flat_map (fun entry : string * Z =>
                        mention tiktokId mentionAt entry.2 <$> ids_of entry.1 toks)
              entries) as Heq.
  { unfold mentionsData. rewrite fold_push_mentions. cbn [app].
    apply flat_map_ext. intros [sym cnt]. cbn [fst snd].
    rewrite symbolToTokens_lookup. by destruct (ids_of sym toks). }
  split; [done|]. rewrite Heq. clear Heq.
  induction entries as [|entry entries IH]; [done|].
  cbn. rewrite length_app, length_fmap, IH. done.
Qed.

Lemma storeTokenMentions_without_tokens_witness :
  storeTokenMentions svc_no_tokens 0 "7301" (Some Fixtures.foo_comments) Fixtures.db0
  = Normal Fixtures.db0.
Proof.
  apply (storeTokenMentions_without_tokens svc_no_tokens 0 "7301"
           (Some Fixtures.foo_comments) Fixtures.db0).
  reflexivity.
Defined.

Lemma for_terms_counts process svc now terms maxResults st :
  (forall term seen, (length (process term maxResults seen).1.2 <= maxResults)%nat) ->
  let st' := (for_terms process svc now terms maxResults st).2 in
  (totalVideos st = length (emitted st) -> totalVideos st' = length (emitted st'))
  /\ (length (emitted st') <= length (emitted st) + length terms * maxResults)%nat
  /\ tokens (db st') = tokens (db st)
  /\ mentions (db st) `prefix_of` mentions (db st')
  /\ (length (tiktoks (db st)) <= length (tiktoks (db st')))%nat
  /\ (length (tiktoks (db st')) + length (emitted st)
      <= length (tiktoks (db st)) + length (emitted st'))%nat.
Proof.
  intros Hbound. revert st. induction terms as [|term terms IH]; intros st.
  - cbn. repeat split; try done; lia.
  - cbn [for_terms]. pose proof (Hbound term (processedUrls st)) as Hb.
    destruct (process term maxResults (processedUrls st)) as [[status videos] seen'].
    cbn in Hb. destruct status.
    + match goal with |- context [for_terms _ _ _ _ _ ?s] => specialize (IH s) end.
      cbn zeta in IH. destruct IH as (Hc & Hl & Ht & Hm & Hlo & Hhi).
      cbn [totalVideos emitted db] in *.
      destruct (storeVideos_frame svc now videos (db st)) as (Ht' & Hm' & Hl').
      rewrite length_app in *.
      split; [intros Hst; apply Hc; lia|]. split; [cbn; lia|].
      split; [congruence|]. split; [by etrans|]. split; lia.
    + cbn. repeat split; try done; lia.
Qed.

(** X10. What one call of [execute] counts and what it leaves alone, at
    whatever point it has arrived: [totalVideos] is the number of videos
    handed to [storeVideos], which is at most 7 * 100 + 7 * 200; a
    successful result reports this number; the token table is unchanged,
    the mention table has only grown at its end, and [tiktoks] has not
    shrunk and has grown by at most the number of videos. *)
Theorem execute_counts_and_frame svc now page db0 :
  let '(res, st) := execute svc now page db0 in
  totalVideos st = length (emitted st)
  /\ (length (emitted st) <= 2100)%nat
  /\ (forall r, res = Some (Normal r) -> success r = true ->
        total r = Some (length (emitted st)) /\ error r = None)
  /\ tokens (db st) = tokens db0
  /\ mentions db0 `prefix_of` mentions (db st)
  /\ (length (tiktoks db0) <= length (tiktoks (db st))
      <= length (tiktoks db0) + length (emitted st))%nat.
Proof.
  unfold execute, failure. destruct (launch_error page) as [t|].
  { cbn. split; [done|]. split; [lia|].
    split; [by destruct (message_of t); intros r [= <-]|].
    split; [done|]. split; [done | lia]. }
  set (st0 := {| totalVideos := 0; processedUrls := ∅; db := db0; emitted := [] |}).
  pose proof (for_terms_counts (processSearchTerm page) svc now searchTerms 100 st0) as H1.
  destruct (for_terms (processSearchTerm page) svc now searchTerms 100 st0)
    as [status1 st1].
  cbn zeta in H1. cbn [snd] in H1.
  destruct H1 as (Hc1 & Hl1 & Ht1 & Hm1 & Hlo1 & Hhi1).
  { intros term seen.
    pose proof (scroll_loop_contract 100 (search_page page term) seen) as H.
    unfold processSearchTerm.
    destruct (scroll_loop 100 (search_page page term) [] seen) as [[? ?] ?]. apply H. }
  cbn in Hc1, Hl1, Ht1, Hm1, Hlo1, Hhi1. specialize (Hc1 eq_refl).
  destruct status1;
    [|cbv beta iota zeta; split; [done|]; split; [lia|]; split; [done|];
      split; [done|]; split; [done | lia]].
  pose proof (for_terms_counts (processHashtagTerm page) svc now hashtagTerms 200 st1) as H2.
  destruct (for_terms (processHashtagTerm page) svc now hashtagTerms 200 st1)
    as [status2 st2].
  cbn zeta in H2. cbn [snd] in H2.
  destruct H2 as (Hc2 & Hl2 & Ht2 & Hm2 & Hlo2 & Hhi2).
  { intros term seen.
    pose proof (scroll_loop_contract 200 (tag_page page term) seen) as H.
    unfold processHashtagTerm.
    destruct (scroll_loop 200 (tag_page page term) [] seen) as [[? ?] ?]. apply H. }
  cbn in Hl2. specialize (Hc2 Hc1).
  assert (mentions db0 `prefix_of` mentions (db st2)) by (by etrans).
  assert (tokens (db st2) = tokens db0) by congruence.
  assert (forall r : tool_result,
            Some (Normal {| success := true; total := Some (totalVideos st2);
                            error := None |})
            = Some (Normal r) -> success r = true ->
            total r = Some (length (emitted st2)) /\ error r = None)
    by (intros r [= <-] _; cbn; by rewrite Hc2).
  destruct status2;
    [destruct (close_error page) as [t|];
       [destruct (close_again_error page); [|destruct (message_of t)]|]|];
    (cbv beta iota zeta; split; [done|]; split; [lia|];
     split; [done || by intros r [= <-]|];
     split; [done|]; split; [done | lia]).
Qed.




End ScrapeCoverage.

(** ** The orchestrator on the paths through the agent framework *)

Section OrchestratorCoverage.
Import Pipeline Coverage.

(** Unfolds the monadic method bodies down to the outside calls. *)
Ltac run_method :=
  cbv [call this_at_calls Orchestrator.start Orchestrator.createWorkflow
       Orchestrator.runManualWorkflow Orchestrator.runPeriodicAnalysis
       Orchestrator.main
       IndividualRevision.start IndividualRevision.createWorkflow
       IndividualRevision.runAgentsIndividually IndividualRevision.step
       IndividualRevision.runPeriodicAnalysis
       try_catch mbind M_bind bind mret M_ret ret throw build emit lift
       read_message run_agent run_workflow execute_tool get_this
       set_isRunning set_workflow new_results get_results set_result
       this results log at_calls isRunning workflow_ sessionId].

(** Splits on the completion of the next outside call, or on whether the
    message of a caught value can be read. *)
Ltac next_call :=
  match goal with
  | |- context [match agent_run ?e ?a ?m with _ => _ end] =>
      destruct (agent_run e a m) eqn:?
  | |- context [match tool_execute ?e ?a ?m with _ => _ end] =>
      destruct (tool_execute e a m) eqn:?
  | |- context [match adk_run ?e ?w ?m with _ => _ end] =>
      destruct (adk_run e w m) eqn:?
  | |- context [match adk_build ?e ?n ?l with _ => _ end] =>
      destruct (adk_build e n l) eqn:?
  | |- context [match message_of ?t with _ => _ end] =>
      destruct (message_of t) eqn:?
  end.

(** Settles a hypothesis about a completion by what is known of it. *)
Ltac known H :=
  match type of H with
  | ?x = ?y =>
      match goal with
      | H' : x = ?z |- _ => tryif constr_eq y z then fail else rewrite H' in H
      end
  end.

(** Finds a pair in a list that is given by its elements. *)
Ltac find_entry := vm_compute; repeat first [left; reflexivity | right].

(** X12. [createWorkflow] makes one build call, with the seven agents in
    the fixed order. In this revision it returns what it leaves in
    [this.workflow]: the built workflow, or [null] when the build throws a
    value whose message can be read. When the build rejects with [null] or
    [undefined], its [catch] block throws the TypeError of reading
    [adkError.message] and leaves [this] as it was. The sibling revision
    rethrows whatever the build throws and then leaves [this] as it was. *)
Theorem createWorkflow_swallows_readable_build_errors
    (e : env) (o : orchestrator) :
  call (Orchestrator.createWorkflow e) o
  = match adk_build e "iris_memecoin_pipeline" full_stage_order with
    | None =>
        (Normal (Some (built "iris_memecoin_pipeline" full_stage_order)),
         {| isRunning := isRunning o;
            workflow_ := Some (built "iris_memecoin_pipeline" full_stage_order);
            sessionId := sessionId o |},
         [EBuild "iris_memecoin_pipeline" full_stage_order])
    | Some adkError =>
        match message_of adkError with
        | Normal _ =>
            (Normal None,
             {| isRunning := isRunning o; workflow_ := None;
                sessionId := sessionId o |},
             [EBuild "iris_memecoin_pipeline" full_stage_order])
        | Throw typeError =>
            (Throw typeError, o,
             [EBuild "iris_memecoin_pipeline" full_stage_order])
        end
    end
  /\ call (IndividualRevision.createWorkflow e) o
     = match adk_build e "iris_memecoin_pipeline" full_stage_order with
       | None =>
           (Normal (built "iris_memecoin_pipeline" full_stage_order),
            {| isRunning := isRunning o;
               workflow_ := Some (built "iris_memecoin_pipeline" full_stage_order);
               sessionId := sessionId o |},
            [EBuild "iris_memecoin_pipeline" full_stage_order])
       | Some error =>
           (Throw error, o, [EBuild "iris_memecoin_pipeline" full_stage_order])
       end.
Proof.
  destruct o as [r w s]. unfold full_stage_order, built. split.
  - run_method. by repeat next_call.
  - run_method. by repeat next_call.
Qed.

(** X13. When the framework builds the workflow and runs it, [start] returns
    the result of that run, keeps the workflow, sets [isRunning], and has
    made two outside calls, the build and the run in mode [full_analysis];
    no agent is run by the orchestrator itself. [getStatus] then reports a
    created workflow and a running orchestrator. *)
Theorem start_runs_the_built_workflow (e : env) (o : orchestrator) (r : stage_result) :
  isRunning o = false ->
  workflow_ o = None ->
  adk_build e "iris_memecoin_pipeline" full_stage_order = None ->
  adk_run e (built "iris_memecoin_pipeline" full_stage_order) "full_analysis"
  = Normal r ->
  let o' := {| isRunning := true;
               workflow_ := Some (built "iris_memecoin_pipeline" full_stage_order);
               sessionId := sessionId o |} in
  call (Orchestrator.start e) o
  = (Normal (VResult r), o',
     [EBuild "iris_memecoin_pipeline" full_stage_order;
      EWorkflowRun "iris_memecoin_pipeline" "full_analysis"])
  /\ st_workflow (getStatus e o') = "created"
  /\ st_isRunning (getStatus e o') = true.
Proof.
  destruct o as [run w s]. cbn [isRunning workflow_ sessionId].
  intros -> -> Hbuild Hrun. unfold full_stage_order, built in *.
  split; [|done]. run_method. rewrite Hbuild. cbv beta iota. by rewrite Hrun.
Qed.

Lemma start_runs_the_built_workflow_witness :
  let o' := {| isRunning := true;
               workflow_ := Some (built "iris_memecoin_pipeline" full_stage_order);
               sessionId := sessionId Fixtures.fresh |} in
  call (Orchestrator.start adk_works) Fixtures.fresh
  = (Normal (VResult Fixtures.ok), o',
     [EBuild "iris_memecoin_pipeline" full_stage_order;
      EWorkflowRun "iris_memecoin_pipeline" "full_analysis"])
  /\ st_workflow (getStatus adk_works o') = "created"
  /\ st_isRunning (getStatus adk_works o') = true.
Proof.
  apply (start_runs_the_built_workflow adk_works Fixtures.fresh Fixtures.ok);
    reflexivity.
Defined.

(** X14. A workflow kept in [this.workflow] is not built again: [start] on
    a stopped orchestrator that holds one makes a single outside call, the
    run of that workflow. If the run returns, its result is returned and
    [isRunning] is set; if it throws, [start] throws the same error and
    leaves [this] as it was. *)
Theorem start_reuses_a_kept_workflow (e : env) (o : orchestrator) (w : workflow) :
  isRunning o = false ->
  workflow_ o = Some w ->
  call (Orchestrator.start e) o
  = match adk_run e w "full_analysis" with
    | Normal r =>
        (Normal (VResult r),
         {| isRunning := true; workflow_ := Some w; sessionId := sessionId o |},
         [EWorkflowRun (wf_name w) "full_analysis"])
    | Throw msg => (Throw msg, o, [EWorkflowRun (wf_name w) "full_analysis"])
    end.
Proof.
  destruct o as [run w' s]. cbn [isRunning workflow_ sessionId].
  intros -> ->. run_method. by next_call.
Qed.

Lemma start_reuses_a_kept_workflow_witness :
  call (Orchestrator.start adk_works) stopped_with_workflow
  = (Normal (VResult Fixtures.ok),
     {| isRunning := true; workflow_ := Some kept_workflow;
        sessionId := sessionId stopped_with_workflow |},
     [EWorkflowRun "iris_memecoin_pipeline" "full_analysis"]).
Proof.
  apply (start_reuses_a_kept_workflow adk_works stopped_with_workflow kept_workflow);
    reflexivity.
Defined.

(** X15. [start] throws on three paths only, and on each of them
    [isRunning] stays clear and [main] fails with the same value: the run
    of a workflow throws, and [start] throws the same value with the
    workflow kept and no stage run by the orchestrator (there is no manual
    fallback on this path); the build rejects with [null] or [undefined],
    and [start] throws the TypeError of reading its message, with [this]
    unchanged and no stage run; or an agent of the manual workflow rejects
    with [null] or [undefined], and [start] throws the TypeError of reading
    its message right after the run of that agent. *)
Theorem start_throws_only_on_three_paths
    (e : env) (o : orchestrator) (thrown_value : thrown) :
  (call (Orchestrator.start e) o).1.1 = Throw thrown_value ->
  exists o' l,
    call (Orchestrator.start e) o = (Throw thrown_value, o', l)
    /\ isRunning o' = false
    /\ sessionId o' = sessionId o
    /\ Orchestrator.main e o = Throw thrown_value
    /\ ((exists w, workflow_ o' = Some w
                   /\ adk_run e w "full_analysis" = Throw thrown_value
                   /\ stages_attempted l = [])
        \/ (exists adkError,
              adk_build e "iris_memecoin_pipeline" full_stage_order = Some adkError
              /\ message_of adkError = Throw thrown_value
              /\ o' = o /\ stages_attempted l = [])
        \/ (exists a error,
              workflow_ o' = None
              /\ last l = Some (EAgentRun a (manual_mode a))
              /\ agent_run e a (manual_mode a) = Throw error
              /\ message_of error = Throw thrown_value)).
Proof.
  destruct o as [[] [w|] s]; unfold Orchestrator.main, full_stage_order;
    run_method; repeat next_call; cbn; intros [=]; subst; eexists _, _;
    (split; [reflexivity|]); (split; [reflexivity|]); (split; [reflexivity|]);
    (split; [reflexivity|]);
    first [ left; eexists; repeat split; (reflexivity || eassumption)
          | right; left; eexists; repeat split; (reflexivity || eassumption)
          | right; right;
            match goal with
            | H : agent_run e ?a _ = Throw ?t |- _ => exists a, t
            end; repeat split; (reflexivity || eassumption) ].
Qed.

Lemma start_throws_only_on_three_paths_witness :
  exists o' l,
    call (Orchestrator.start adk_run_throws) Fixtures.fresh
    = (Throw (Error "this.workflow.run is not a function"), o', l)
    /\ isRunning o' = false
    /\ sessionId o' = sessionId Fixtures.fresh
    /\ Orchestrator.main adk_run_throws Fixtures.fresh
       = Throw (Error "this.workflow.run is not a function")
    /\ ((exists w, workflow_ o' = Some w
                   /\ adk_run adk_run_throws w "full_analysis"
                      = Throw (Error "this.workflow.run is not a function")
                   /\ stages_attempted l = [])
        \/ (exists adkError,
              adk_build adk_run_throws "iris_memecoin_pipeline" full_stage_order
              = Some adkError
              /\ message_of adkError
                 = Throw (Error "this.workflow.run is not a function")
              /\ o' = Fixtures.fresh /\ stages_attempted l = [])
        \/ (exists a error,
              workflow_ o' = None
              /\ last l = Some (EAgentRun a (manual_mode a))
              /\ agent_run adk_run_throws a (manual_mode a) = Throw error
              /\ message_of error
                 = Throw (Error "this.workflow.run is not a function"))).
Proof.
  apply (start_throws_only_on_three_paths adk_run_throws Fixtures.fresh
           (Error "this.workflow.run is not a function")).
  reflexivity.
Defined.

(** X16. [runManualWorkflow] leaves [this] as it was, runs agents only, each
    with the mode of its stage, and attempts a prefix of the fixed order.
    It ends in one of three ways. All seven stages returned: the report is
    a success in the mode [manual] with one result for each stage. A stage
    threw a value whose message can be read: that stage is the last one
    attempted, and the report is a failure in the mode [manual] that
    carries this message and the results of exactly the stages that
    returned before. A stage rejected with [null] or [undefined]: that
    stage is the last one attempted, and the [catch] block throws the
    TypeError of reading the message, so that no report is returned. *)
Theorem runManualWorkflow_reports_or_rethrows (e : env) (o : orchestrator) :
  exists c l,
    call (Orchestrator.runManualWorkflow e) o = (c, o, l)
    /\ stages_attempted l `prefix_of` full_stage_order
    /\ l = map (fun a => EAgentRun a (manual_mode a)) (stages_attempted l)
    /\ ((exists rep,
           c = Normal rep
           /\ rep_mode rep = "manual"
           /\ rep_success rep = true /\ rep_error rep = None
           /\ stages_attempted l = full_stage_order
           /\ map fst (rep_results rep) = map manual_key full_stage_order)
        \/ (exists returned a error,
              stages_attempted l = returned ++ [a]
              /\ agent_run e a (manual_mode a) = Throw error
              /\ match message_of error with
                 | Normal text =>
                     exists rep,
                       c = Normal rep
                       /\ rep_mode rep = "manual"
                       /\ rep_success rep = false /\ rep_error rep = text
                       /\ map fst (rep_results rep) = map manual_key returned
                 | Throw typeError => c = Throw typeError
                 end)).
Proof.
  destruct o as [r w s]. run_method.
  repeat next_call; cbn; eexists _, _;
    (split; [reflexivity|]);
    (split; [unfold full_stage_order;
             repeat first [apply prefix_cons | apply prefix_nil | reflexivity]|]);
    (split; [reflexivity|]);
    first [ left; eexists; repeat split; reflexivity
          | right;
            match goal with
            | H : agent_run e ?a _ = Throw ?t
              |- context [stages_attempted ?l] =>
                exists (removelast (stages_attempted l)), a, t
            end;
            (split; [reflexivity|]); (split; [assumption|]);
            match goal with
            | H : message_of _ = _ |- _ => rewrite H
            end;
            first [ reflexivity | eexists; repeat split; reflexivity ] ].
Qed.

(** X17. [runPeriodicAnalysis] never throws and never writes a field of
    [this]. It returns a report only after all four periodic stages have
    been attempted in order and have returned; whenever a stage it runs
    throws, the error is swallowed and the call returns [undefined]. *)
Theorem periodic_run_swallows_stage_errors (e : env) (o : orchestrator) :
  exists v l,
    call (Orchestrator.runPeriodicAnalysis e) o = (Normal v, o, l)
    /\ (forall rep, v = VReport rep ->
         rep_success rep = true /\ rep_mode rep = "manual"
         /\ stages_attempted l = periodic_stage_order
         /\ map fst (rep_results rep) = map manual_key periodic_stage_order)
    /\ (forall a mode msg,
         In (EAgentRun a mode) l -> agent_run e a mode = Throw msg ->
         v = VUndefined).
Proof.
  destruct o as [[] w s]; run_method; repeat next_call; cbn; eexists _, _;
    (split; [reflexivity|]);
    (split; [intros rep [=]; subst; repeat split; reflexivity|]);
    intros stage mode thrown Hin Hthrow; try reflexivity; exfalso;
    repeat (destruct Hin as [Heq|Hin]; [by (inversion Heq; subst; congruence)|]);
    contradiction.
Qed.



(** Running the tools one by one, from any state of the method: either
    every tool whose rejection is caught has a readable message and the
    method returns its report with [isRunning] set, or a tool rejects with
    [null] or [undefined] and the method throws the TypeError of reading
    the message, leaving [this] as it was. *)
Lemma runAgentsIndividually_from (e : env) (h : heap) :
  exists c this' results' l snapshots,
    IndividualRevision.runAgentsIndividually e h
    = (c, {| this := this'; results := results'; log := log h ++ l;
             at_calls := at_calls h ++ snapshots |})
    /\ sessionId this' = sessionId (this h)
    /\ stages_attempted l `prefix_of` full_stage_order
    /\ ((exists rep,
           c = Normal (VReport rep)
           /\ this' = {| isRunning := true; workflow_ := workflow_ (this h);
                         sessionId := sessionId (this h) |}
           /\ rep_success rep = true /\ rep_mode rep = "individual_execution"
           /\ stages_attempted l = full_stage_order
           /\ map fst (rep_results rep)
              = map Vocabulary.individual_key full_stage_order
           /\ (forall a error text,
                 tool_execute e a "test" = Throw error ->
                 message_of error = Normal text ->
                 In (Vocabulary.individual_key a,
                     {| success := false; error := text |})
                    (rep_results rep)))
        \/ (exists returned a error typeError,
              c = Throw typeError
              /\ this' = this h
              /\ stages_attempted l = returned ++ [a]
              /\ tool_execute e a "test" = Throw error
              /\ message_of error = Throw typeError)).
Proof.
  destruct h as [[r w s] res l0 at0]. run_method.
  repeat next_call; cbn; eexists _, _, _, _, _;
    (split; [by (rewrite <- ?app_assoc; f_equal; f_equal)|]);
    (split; [reflexivity|]);
    (split; [unfold full_stage_order;
             repeat first [apply prefix_cons | apply prefix_nil | reflexivity]|]);
    first [ left; eexists; (split; [reflexivity|]); (split; [reflexivity|]);
            (split; [reflexivity|]); (split; [reflexivity|]);
            (split; [reflexivity|]); (split; [reflexivity|]);
            intros [] error text Herr Htext; known Herr;
            first [ discriminate Herr
                  | injection Herr as <-; known Htext; injection Htext as <-;
                    find_entry ]
          | right;
            match goal with
            | H : tool_execute e ?a _ = Throw ?t, Hm : message_of ?t = Throw ?te
              |- context [stages_attempted ?l] =>
                exists (removelast (stages_attempted l)), a, t, te
            end; repeat split; (reflexivity || assumption) ].
Qed.

(** X26. [runAgentsIndividually] of the sibling revision executes the tools
    in the fixed order, a rejection of one tool not keeping it from the
    next as long as the message of the rejection can be read. If that is so
    for every tool that rejects, all seven tools are executed, [isRunning]
    is set, and the report says [success] in the mode
    [individual_execution], with one result under the key of each stage
    and, for each tool that rejected, a failure with its message. If a tool
    rejects with [null] or [undefined], the [catch] block of its step
    throws the TypeError of reading the message: the method rethrows it,
    executes no further tool and leaves [this] as it was. *)
Theorem runAgentsIndividually_attempts_every_stage
    (e : env) (o : orchestrator) :
  exists c o' l,
    call (IndividualRevision.runAgentsIndividually e) o = (c, o', l)
    /\ stages_attempted l `prefix_of` full_stage_order
    /\ ((exists rep,
           c = Normal (VReport rep)
           /\ o' = {| isRunning := true; workflow_ := workflow_ o;
                      sessionId := sessionId o |}
           /\ rep_success rep = true /\ rep_mode rep = "individual_execution"
           /\ stages_attempted l = full_stage_order
           /\ map fst (rep_results rep)
              = map Vocabulary.individual_key full_stage_order
           /\ (forall a error text,
                 tool_execute e a "test" = Throw error ->
                 message_of error = Normal text ->
                 In (Vocabulary.individual_key a,
                     {| success := false; error := text |})
                    (rep_results rep)))
        \/ (exists returned a error typeError,
              c = Throw typeError
              /\ o' = o
              /\ stages_attempted l = returned ++ [a]
              /\ tool_execute e a "test" = Throw error
              /\ message_of error = Throw typeError))
    /\ (tools_reject_readably e "test" full_stage_order ->
        exists rep, c = Normal (VReport rep)).
Proof.
  unfold call.
  destruct (runAgentsIndividually_from e
              {| this := o; results := []; log := []; at_calls := [] |})
    as (c & o' & res' & l & ats & -> & Hsid & Hpre & Hcases).
  cbn [log app this workflow_ sessionId] in *.
  exists c, o', l. split; [reflexivity|]. split; [done|]. split.
  - destruct Hcases as [(rep & -> & -> & Hrest) | (returned & a & error & te & -> & -> & Hrest)].
    + left. exists rep. done.
    + right. exists returned, a, error, te. done.
  - intros Htools.
    destruct Hcases as [(rep & -> & _) | (returned & a & error & te & _ & _ & Hst & Hthrow & Hmsg)];
      [by exists rep|].
    destruct (Htools a error) as [text Htext]; [|done|congruence].
    assert (a ∈ stages_attempted l) as Hin
      by (rewrite Hst; apply elem_of_app; right; by apply list_elem_of_singleton).
    destruct Hpre as [k Hk]. apply list_elem_of_In. rewrite Hk.
    apply elem_of_app. by left.
Qed.

(** X19. In the sibling revision [start] keeps the session id and, when it
    returns from a stopped orchestrator, leaves [isRunning] set; when it
    returns a report, all seven tools have been executed in the fixed order
    and the report says [success] in the mode [individual_execution]. It
    throws only the TypeError of reading the message of a rejection with
    [null] or [undefined], by the build, by the run of the workflow or by a
    tool; so it never throws when every rejection is an error object. *)
Theorem individual_start_throws_only_on_null_rejections
    (e : env) (o : orchestrator) :
  exists c o' l,
    call (IndividualRevision.start e) o = (c, o', l)
    /\ sessionId o' = sessionId o
    /\ (forall v, c = Normal v -> isRunning o = false -> isRunning o' = true)
    /\ (forall rep, c = Normal (VReport rep) ->
         rep_success rep = true /\ rep_mode rep = "individual_execution"
         /\ stages_attempted l = full_stage_order
         /\ map fst (rep_results rep)
            = map Vocabulary.individual_key full_stage_order)
    /\ (forall typeError, c = Throw typeError ->
         exists error,
           message_of error = Throw typeError
           /\ (adk_build e "iris_memecoin_pipeline" full_stage_order = Some error
               \/ (exists w, adk_run e w "full_analysis" = Throw error)
               \/ (exists a, tool_execute e a "test" = Throw error))).
Proof.
  destruct o as [[] [w|] s]; unfold full_stage_order;
    cbv [call IndividualRevision.start IndividualRevision.createWorkflow
         try_catch mbind M_bind bind mret M_ret ret throw build emit lift
         read_message run_workflow get_this set_isRunning set_workflow
         this results log at_calls isRunning workflow_ sessionId];
    repeat next_call; cbn [app];
    try match goal with
        | |- context [IndividualRevision.runAgentsIndividually e ?h] =>
            destruct (runAgentsIndividually_from e h)
              as (c' & o' & res' & l' & ats' & -> & Hsid &  _ &
                  [(rep' & -> & -> & Hs & Hm & Hl & Hk & _)
                  |(returned & a' & error' & te' & -> & -> & _ & Hthrow & Hmsg)]);
            cbn [log this sessionId workflow_ at_calls app] in *
        end;
    eexists _, _, _; (split; [reflexivity|]);
    (split; [done|]);
    (split; [by intros v [=]|]);
    (split; [intros rep [=]; subst;
             repeat split; try done;
             unfold stages_attempted in *; cbn; done|]);
    intros typeError [=]; subst;
    eexists; (split; [eassumption|]); eauto.
Qed.

(** X20. The periodic run of the sibling revision, when the build of the
    periodic workflow throws and none of the four tools rejects with [null]
    or [undefined]: all four tools are executed in the fixed order with the
    mode [periodic], the report says [success] in the mode
    [individual_periodic] whatever the tools did, and a tool that throws is
    filed under its key as a failure with its message. *)
Theorem individual_periodic_attempts_every_stage
    (e : env) (o : orchestrator) (adkError : thrown) :
  isRunning o = true ->
  adk_build e "periodic_analysis" periodic_stage_order = Some adkError ->
  tools_reject_readably e "periodic" periodic_stage_order ->
  exists rep l,
    call (IndividualRevision.runPeriodicAnalysis e) o
    = (Normal (VReport rep), o,
       EBuild "periodic_analysis" periodic_stage_order :: l)
    /\ rep_success rep = true /\ rep_mode rep = "individual_periodic"
    /\ stages_attempted l = periodic_stage_order
    /\ map fst (rep_results rep)
       = map Vocabulary.individual_key periodic_stage_order
    /\ (forall a error text,
        tool_execute e a "periodic" = Throw error ->
        In a periodic_stage_order ->
        message_of error = Normal text ->
        In (Vocabulary.individual_key a, {| success := false; error := text |})
           (rep_results rep)).
Proof.
  destruct o as [r w s]. cbn [isRunning]. intros -> Hbuild Htools.
  unfold periodic_stage_order, tools_reject_readably in *.
  run_method. rewrite Hbuild.
  repeat next_call; cbn;
    try (exfalso;
         match goal with
         | H : tool_execute e ?a _ = Throw ?t, Hm : message_of ?t = Throw _ |- _ =>
             destruct (Htools a t) as [text' Htext];
               [cbn; tauto | exact H | congruence]
         end);
    eexists _, _;
    (split; [reflexivity|]); (split; [reflexivity|]); (split; [reflexivity|]);
    (split; [reflexivity|]); (split; [reflexivity|]);
    intros [] error text Herr Hin Htext;
    try (exfalso; clear -Hin; cbn in Hin; intuition discriminate);
    known Herr;
    first [ discriminate Herr
          | injection Herr as <-; known Htext; injection Htext as <-;
            find_entry ].
Qed.

Lemma individual_periodic_attempts_every_stage_witness :
  exists rep l,
    call (IndividualRevision.runPeriodicAnalysis Fixtures.outlight_throws)
         Fixtures.started
    = (Normal (VReport rep), Fixtures.started,
       EBuild "periodic_analysis" periodic_stage_order :: l)
    /\ rep_success rep = true /\ rep_mode rep = "individual_periodic"
    /\ stages_attempted l = periodic_stage_order
    /\ map fst (rep_results rep)
       = map Vocabulary.individual_key periodic_stage_order
    /\ (forall a error text,
        tool_execute Fixtures.outlight_throws a "periodic" = Throw error ->
        In a periodic_stage_order ->
        message_of error = Normal text ->
        In (Vocabulary.individual_key a, {| success := false; error := text |})
           (rep_results rep)).
Proof.
  apply (individual_periodic_attempts_every_stage Fixtures.outlight_throws
           Fixtures.started
           (Error "this.sessionService.createSession is not a function"));
    [ reflexivity | reflexivity
    | intros [] t _; cbn; intros [=]; subst; by eexists ].
Defined.

End OrchestratorCoverage.

(** ** The other tools *)

Section ToolCoverage.
Import Tools Coverage.

(** Unfolds the body of a tool down to the outside calls. *)
Ltac run_tool :=
  cbv [execute TelegramScrapingTool_execute OutlightScrapingTool_execute
       PatternAnalysisTool_execute MarketDataTool_execute
       TwitterAPITool_execute DashboardSyncTool_execute failed
       t_catch mbind T_bind t_bind mret T_ret t_ret make script];
  cbn [app].

(** Splits on the completion of the next outside call, or on whether the
    message of the caught value can be read. *)
Ltac next_outside_call w :=
  match goal with
  | |- context [match w ?c with _ => _ end] => destruct (w c) eqn:?
  | |- context [match message_of ?t with _ => _ end] =>
      destruct (message_of t) eqn:?
  end.

(** X21. The [execute] of the Telegram, Outlight, pattern-analysis,
    market-data, Twitter and dashboard tools. The calls it makes are a
    prefix of the fixed script of the tool. Either all of them returned and
    the result says [success]; or the last call made threw, every call
    before it returned and no later call was made. In that case, if the
    message of the thrown value can be read, the result is a failure that
    carries this message; if the value is [null] or [undefined], the
    [catch] block throws the TypeError of reading its message, so that
    [execute] itself rejects, with an error object. *)
Theorem tool_execute_fails_or_rethrows (t : tool) (w : world) :
  exists c l,
    execute t w = (c, l)
    /\ l `prefix_of` script t
    /\ ((exists r, c = Normal r /\ success r = true /\ error r = None
                   /\ l = script t /\ all_return w l)
        \/ (exists returned call thrown_value,
              l = returned ++ [call]
              /\ all_return w returned
              /\ w call = Throw thrown_value
              /\ match message_of thrown_value with
                 | Normal text =>
                     c = Normal {| success := false; result := None;
                                   message := None; error := text |}
                 | Throw typeError =>
                     c = Throw typeError
                     /\ exists text, typeError = Error text
                 end)).
Proof.
  destruct t; run_tool; repeat (next_outside_call w; cbn [app]); eexists _, _;
    (split; [reflexivity|]);
    (split; [repeat first [apply prefix_cons | apply prefix_nil | reflexivity]|]);
    first [ left; eexists; split; [reflexivity|]; split; [reflexivity|];
            split; [reflexivity|]; split; [reflexivity|];
            unfold all_return;
            repeat (apply Forall_cons_2; [eauto|]); apply Forall_nil_2
          | right;
            match goal with
            | H : _ ?c = Throw ?t0 |- context [?l = _ ++ [_]] =>
                exists (removelast l), c, t0
            end;
            split; [reflexivity|];
            split; [unfold all_return; cbn;
                    repeat (apply Forall_cons_2; [eauto|]); apply Forall_nil_2|];
            split; [assumption|];
            match goal with
            | H : message_of ?t0 = _ |- _ =>
                rewrite H; first [ reflexivity
                                 | split; [reflexivity|];
                                   destruct t0; cbn in H; try discriminate H;
                                   injection H as <-; by eexists ]
            end ].
Qed.

End ToolCoverage.

(** ** The session service *)

Section SessionCoverage.
Import SessionService Coverage.

(** X22. [createSession], [saveSession] and [deleteSession] never throw.
    The two writes return a row exactly when the store was reached and
    answered the upsert without an error and with that row, and [null]
    otherwise; [deleteSession] returns [true] exactly when the store was
    reached and answered without an error. *)
Theorem session_writes_return_the_row_or_null
    (this_supabase : receiver) (now : Z) (sessionId : string)
    (initialData : option json) (sessionData : json) :
  let created := {| session_id := sessionId;
                    session_data := Some (default [] initialData);
                    status := Some "active";
                    created_at := Some now; updated_at := Some now |} in
  let saved := {| session_id := sessionId; session_data := Some sessionData;
                  status := None; created_at := None; updated_at := Some now |} in
  (exists r, createSession this_supabase now sessionId initialData = Normal r
             /\ forall row, r = Some row
                  <-> answered this_supabase (Upsert created) (Some row))
  /\ (exists r, saveSession this_supabase now sessionId sessionData = Normal r
                /\ forall row, r = Some row
                     <-> answered this_supabase (Upsert saved) (Some row))
  /\ (exists b, deleteSession this_supabase sessionId = Normal b
                /\ (b = true
                    <-> exists row, answered this_supabase
                                      (DeleteBySession sessionId) row)).
Proof.
  unfold createSession, saveSession, deleteSession, ask, data_or_throw, answered.
  cbv zeta. destruct this_supabase as [c|].
  - repeat split.
    + destruct (c (Upsert _)) as [resp|msg] eqn:Hc.
      * destruct (error resp) eqn:He; eexists; (split; [reflexivity|]);
          intros row; split; try done.
        -- intros (c' & resp' & [= <-] & Hc' & He' & _). congruence.
        -- intros Hd. eauto 10.
        -- intros (c' & resp' & [= <-] & Hc' & He' & Hd). congruence.
      * eexists; split; [reflexivity|]. intros row; split; [done|].
        intros (c' & resp' & [= <-] & Hc' & _). congruence.
    + destruct (c (Upsert _)) as [resp|msg] eqn:Hc.
      * destruct (error resp) eqn:He; eexists; (split; [reflexivity|]);
          intros row; split; try done.
        -- intros (c' & resp' & [= <-] & Hc' & He' & _). congruence.
        -- intros Hd. eauto 10.
        -- intros (c' & resp' & [= <-] & Hc' & He' & Hd). congruence.
      * eexists; split; [reflexivity|]. intros row; split; [done|].
        intros (c' & resp' & [= <-] & Hc' & _). congruence.
    + destruct (c (DeleteBySession _)) as [resp|msg] eqn:Hc.
      * destruct (error resp) eqn:He; eexists; (split; [reflexivity|]);
          split; try done.
        -- intros (row & c' & resp' & [= <-] & Hc' & He' & _). congruence.
        -- intros _. eauto 10.
      * eexists; split; [reflexivity|]. split; [done|].
        intros (row & c' & resp' & [= <-] & Hc' & _). congruence.
  - repeat split; eexists; (split; [reflexivity|]); intros; split; try done;
      intros; repeat match goal with H : ex _ |- _ => destruct H end;
      intuition discriminate.
Qed.

(** X23. [getSession] never throws. When the store is reached and answers,
    without an error or with the error whose code is [PGRST116], it returns
    the [session_data] of the row that came as data, and the empty object
    when no row came or the row has no [session_data]. In every other case,
    that is when there is no store to reach, the request throws, or the
    store answers with another error, it returns the empty object. *)
Theorem getSession_returns_stored_data_or_empty
    (this_supabase : receiver) (sessionId : string) :
  exists j,
    getSession this_supabase sessionId = Normal j
    /\ (forall c resp,
          this_supabase = Some c ->
          c (SelectBySession sessionId) = Normal resp ->
          (forall err, error resp = Some err -> code err = "PGRST116") ->
          j = default [] (data resp ≫= session_data))
    /\ (forall c resp row stored,
          this_supabase = Some c ->
          c (SelectBySession sessionId) = Normal resp ->
          (forall err, error resp = Some err -> code err = "PGRST116") ->
          data resp = Some row -> session_data row = Some stored ->
          j = stored)
    /\ (this_supabase = None
        \/ (exists c t,
              this_supabase = Some c
              /\ c (SelectBySession sessionId) = Throw t)
        \/ (exists c resp err,
              this_supabase = Some c
              /\ c (SelectBySession sessionId) = Normal resp
              /\ error resp = Some err /\ code err <> "PGRST116") ->
        j = []).
Proof.
  unfold getSession, ask.
  destruct this_supabase as [c|].
  2:{ eexists. split; [reflexivity|]. split; [by intros ? ? [=]|].
      split; [by intros ? ? ? ? [=]|]. done. }
  destruct (c (SelectBySession sessionId)) as [resp|t] eqn:Hc.
  2:{ eexists. split; [reflexivity|].
      split; [intros c' resp' [= <-] Hc'; congruence|].
      split; [intros c' resp' ? ? [= <-] Hc'; congruence|]. done. }
  assert (forall j,
    j = default [] (data resp ≫= session_data) ->
    (forall c0 resp0, Some c = Some c0 -> c0 (SelectBySession sessionId) = Normal resp0 ->
       (forall err, error resp0 = Some err -> code err = "PGRST116") ->
       j = default [] (data resp0 ≫= session_data))
    /\ (forall c0 resp0 row stored, Some c = Some c0 ->
          c0 (SelectBySession sessionId) = Normal resp0 ->
          (forall err, error resp0 = Some err -> code err = "PGRST116") ->
          data resp0 = Some row -> session_data row = Some stored -> j = stored))
    as Hdata.
  { intros j ->. split.
    - intros c0 resp0 [= <-] Hc0 _. congruence.
    - intros c0 resp0 row stored [= <-] Hc0 _ Hrow Hstored.
      assert (resp0 = resp) as -> by congruence.
      rewrite Hrow. cbn. by rewrite Hstored. }
  destruct (error resp) as [err|] eqn:He.
  - case_bool_decide as Hcode.
    + eexists. split; [reflexivity|].
      split; [intros c0 resp0 [= <-] Hc0 Hok;
              assert (resp0 = resp) as -> by congruence;
              by destruct (Hcode (Hok err He))|].
      split; [intros c0 resp0 ? ? [= <-] Hc0 Hok;
              assert (resp0 = resp) as -> by congruence;
              by destruct (Hcode (Hok err He))|].
      done.
    + eexists. split; [reflexivity|].
      destruct (Hdata _ eq_refl) as [H1 H2].
      split; [exact H1|]. split; [exact H2|].
      intros [[=] | [(c0 & t & [= <-] & Hc0) | (c0 & resp0 & err0 & [= <-] & Hc0 & He0 & Hne)]];
        [congruence|].
      assert (resp0 = resp) as -> by congruence.
      assert (err0 = err) as -> by congruence.
      by destruct (decide (code err = "PGRST116")).
  - eexists. split; [reflexivity|].
    destruct (Hdata _ eq_refl) as [H1 H2].
    split; [exact H1|]. split; [exact H2|].
    intros [[=] | [(c0 & t & [= <-] & Hc0) | (c0 & resp0 & err0 & [= <-] & Hc0 & He0 & Hne)]];
      [congruence|].
    assert (resp0 = resp) as -> by congruence. congruence.
Qed.

(** X24. Called on the object that [createSessionService] returns, the four
    methods never reach the store: they return [null], the empty object,
    [null] and [false]. *)
Theorem the_built_session_service_reaches_no_store
    (now : Z) (sessionId : string) (initialData : option json) (sessionData : json) :
  createSession createSessionService now sessionId initialData = Normal None
  /\ getSession createSessionService sessionId = Normal []
  /\ saveSession createSessionService now sessionId sessionData = Normal None
  /\ deleteSession createSessionService sessionId = Normal false.
Proof. repeat split; reflexivity. Qed.

End SessionCoverage.

(** ** The installer of the bitquery dependencies *)

Section InstallCoverage.
Import InstallBitqueryDeps.

(** X25. [installBitqueryDependencies], started from a script directory
    [parent/leaf]: it ends normally or with exit code 1, and normally
    exactly when the change into [parent/bitquery], the [yarn install]
    there and the change back all succeed; then the working directory is
    the script directory. The commands are always a prefix of these three,
    [yarn install] only runs in [parent/bitquery] after the change into it
    succeeded, and when that change fails the working directory is the one
    the script was started in. *)
Theorem install_completes_only_when_every_step_succeeds
    (sys : system) (parent : path) (leaf : string) (cwd0 : path) :
  let dirname := parent ++ [leaf] in
  let bitqueryPath := parent ++ ["bitquery"] in
  let r := installBitqueryDependencies sys dirname cwd0 in
  (ended r = Completed \/ ended r = Exit 1)
  /\ (ended r = Completed
      <-> chdir_error sys bitqueryPath = None
          /\ yarn_install_error sys bitqueryPath = None
          /\ chdir_error sys dirname = None)
  /\ (ended r = Completed ->
      cwd r = dirname
      /\ commands r = [Chdir bitqueryPath; YarnInstall bitqueryPath; Chdir dirname])
  /\ commands r `prefix_of` [Chdir bitqueryPath; YarnInstall bitqueryPath; Chdir dirname]
  /\ (forall p, YarnInstall p ∈ commands r ->
        p = bitqueryPath /\ chdir_error sys bitqueryPath = None)
  /\ (chdir_error sys bitqueryPath <> None -> cwd r = cwd0).
Proof.
  cbv zeta. unfold installBitqueryDependencies, join_up.
  rewrite removelast_last.
  destruct (chdir_error sys (parent ++ ["bitquery"])) eqn:H1;
    [|destruct (yarn_install_error sys (parent ++ ["bitquery"])) eqn:H2;
      [|destruct (chdir_error sys (parent ++ [leaf])) eqn:H3]];
    cbn [ended cwd commands];
    (split; [by auto|]);
    (split; [split; [done | by intros (? & ? & ?)]|]);
    (split; [done|]);
    (split; [repeat first [apply prefix_cons | apply prefix_nil | reflexivity]|]);
    (split; [|done]);
    intros p; rewrite ?elem_of_cons, elem_of_nil; intros Hp;
    repeat (destruct Hp as [Hp|Hp]; try discriminate Hp); try done;
    by injection Hp as ->.
Qed.

End InstallCoverage.
